(** * Calculator.Den: the expression state machine and evaluator of script.js

    A shallow embedding of [src/script.js].  JavaScript numbers are IEEE 754
    binary64 values, modelled by Rocq's primitive floats; the token sequence,
    the input buffer and the history are the lists and strings the script
    keeps in its global [state] object, threaded explicitly here.  What
    [updateDisplay] and [updateHistory] write is kept beside the state as a
    [page]; the [classList] calls and the scroll positions are left out. *)

From Stdlib Require Import ZArith Floats Ascii String DecimalString.
From stdpp Require Import base list strings.
From Equations Require Import Equations.

Local Open Scope Z_scope.

(** ** The JavaScript built-ins the script calls

    String methods, [parseFloat], [Number.prototype.toString] and
    [Number.prototype.toExponential], written after their definitions in
    ECMA-262: decimal text is converted with exact integer arithmetic and
    rounded to the nearest binary64 value, and a number's text is the
    shortest decimal that reads back as the same value. *)

Module JS.

(** *** Strings *)

(** ECMAScript white space that fits in one byte. *)
Definition is_white_space (c : ascii) : bool :=
  match c with
  | " " | "009" | "010" | "011" | "012" | "013" | "160" => true
  | _ => false
  end%char.

Fixpoint trimStart (s : string) : string :=
  match s with
  | String c r => if is_white_space c then trimStart r else s
  | EmptyString => EmptyString
  end.

Definition trimEnd (s : string) : string := String.rev (trimStart (String.rev s)).

(** [s.trim()] *)
Definition trim (s : string) : string := trimEnd (trimStart s).

(** [s.includes(c)] for a one-character needle. *)
Fixpoint includes (c : ascii) (s : string) : bool :=
  match s with
  | String d r => if Ascii.eqb c d then true else includes c r
  | EmptyString => false
  end.

(** [s.replace(c, '')]: only the first occurrence goes. *)
Fixpoint remove_first (c : ascii) (s : string) : string :=
  match s with
  | String d r => if Ascii.eqb c d then r else String d (remove_first c r)
  | EmptyString => EmptyString
  end.

(** [s.slice(0, -1)] *)
Fixpoint drop_last (s : string) : string :=
  match s with
  | String c EmptyString => EmptyString
  | String c r => String c (drop_last r)
  | EmptyString => EmptyString
  end.

(** [a.join('')] *)
Definition join (a : list string) : string := String.concat "" a.

(** Truthiness of a string: only the empty string is falsy. *)
Definition truthy (s : string) : bool := negb (String.eqb s "").

(** *** Decimal text to number *)

Definition is_digit (c : ascii) : bool :=
  match c with
  | "0" | "1" | "2" | "3" | "4" | "5" | "6" | "7" | "8" | "9" => true
  | _ => false
  end%char.

Definition digit_value (c : ascii) : Z := Z.of_nat (nat_of_ascii c) - 48.

(** The longest run of decimal digits at the head of [s], and what follows. *)
Fixpoint span_digits (s : string) : string * string :=
  match s with
  | String c r =>
      if is_digit c then let '(d, t) := span_digits r in (String c d, t)
      else (EmptyString, s)
  | EmptyString => (EmptyString, EmptyString)
  end.

Fixpoint digits_value (acc : Z) (s : string) : Z :=
  match s with
  | String c r => digits_value (10 * acc + digit_value c) r
  | EmptyString => acc
  end.

(** [num / den] (both positive) rounded to the nearest binary64, ties to
    even: a quotient of at least 64 bits with a sticky last bit is handed to
    the library's rounding. *)
Definition round_ratio (neg : bool) (num den : Z) : spec_float :=
  let s := Z.max 0 (64 + Z.log2 den - Z.log2 num) in
  let q := (num * 2 ^ s) / den in
  let r := (num * 2 ^ s) mod den in
  let m := 2 * q + (if r =? 0 then 0 else 1) in
  binary_normalize prec emax (if neg then - m else m) (- s - 1) neg.

(** The Number value of [(-1)^neg * m * 10^e]. *)
Definition decimal_to_float (neg : bool) (m e : Z) : float :=
  SF2Prim
    (if m =? 0 then S754_zero neg
     else if 0 <=? e then
       binary_normalize prec emax ((if neg then - m else m) * 10 ^ e) 0 neg
     else round_ratio neg m (10 ^ (- e))).

(** The ExponentPart of a StrDecimalLiteral, when one is there. *)
Definition exponent_part (s : string) : Z :=
  match s with
  | String c r =>
      if Ascii.eqb c "e" || Ascii.eqb c "E" then
        let '(neg, r') :=
          match r with
          | String "-" t => (true, t)
          | String "+" t => (false, t)
          | _ => (false, r)
          end in
        let '(d, _) := span_digits r' in
        if String.eqb d "" then 0
        else if neg then - digits_value 0 d else digits_value 0 d
      else 0
  | EmptyString => 0
  end.

(** [parseFloat(s)]: leading white space is skipped, the longest prefix that
    is a StrDecimalLiteral is converted, and [NaN] is returned when there is
    none. *)
Definition parseFloat (s : string) : float :=
  let s := trimStart s in
  let '(neg, s) :=
    match s with
    | String "-" t => (true, t)
    | String "+" t => (false, t)
    | _ => (false, s)
    end in
  if String.prefix "Infinity" s then (if neg then neg_infinity else infinity)
  else
    let '(ip, r1) := span_digits s in
    let '(fp, r2) :=
      match r1 with
      | String "." t => span_digits t
      | _ => (EmptyString, r1)
      end in
    if String.eqb ip "" && String.eqb fp "" then nan
    else
      decimal_to_float neg (digits_value 0 (ip +:+ fp))
        (exponent_part r2 - Z.of_nat (String.length fp)).

(** [isNaN(x)] on a number. *)
Definition isNaN (x : float) : bool := PrimFloat.is_nan x.

(** [!x] on a number: [0], [-0] and [NaN] are the falsy numbers. *)
Definition falsy (x : float) : bool := PrimFloat.eqb x 0 || PrimFloat.is_nan x.

(** *** Number to text *)

Definition string_of_Z (z : Z) : string :=
  NilZero.string_of_uint (N.to_uint (Z.to_N z)).

(** The exact value of a positive finite float, as a fraction. *)
Definition exact_ratio (x : float) : Z * Z :=
  match Prim2SF x with
  | S754_finite _ m e =>
      if 0 <=? e then (Z.pos m * 2 ^ e, 1) else (Z.pos m, 2 ^ (- e))
  | _ => (0, 1)
  end.

(** [floor (num / den / 10^p)] and whether the division is exact. *)
Definition scaled_floor (num den p : Z) : Z * bool :=
  let '(a, b) := if 0 <=? p then (num, den * 10 ^ p) else (num * 10 ^ (- p), den) in
  (a / b, a mod b =? 0).

(** [10^n <= num / den] *)
Definition pow10_le (n num den : Z) : bool :=
  if 0 <=? n then 10 ^ n * den <=? num else den <=? num * 10 ^ (- n).

(** The [n] with [10^(n-1) <= num/den < 10^n], searched from an estimate made
    of the binary logarithms. *)
Fixpoint adjust_log10 (fuel : nat) (n num den : Z) : Z :=
  match fuel with
  | O => n
  | S fuel' =>
      if pow10_le n num den then adjust_log10 fuel' (n + 1) num den
      else if pow10_le (n - 1) num den then n
      else adjust_log10 fuel' (n - 1) num den
  end.

Definition decimal_exponent (num den : Z) : Z :=
  adjust_log10 8 ((Z.log2 num - Z.log2 den) * 30103 / 100000) num den.

(** Twice the distance comparison [num/den - lo*10^p] against [hi*10^p - num/den]. *)
Definition nearer_low (num den lo p : Z) : comparison :=
  let '(a, b) := if 0 <=? p then (num, den * 10 ^ p) else (num * 10 ^ (- p), den) in
  (* a/b - lo  ?=  lo + 1 - a/b *)
  (2 * a ?= (2 * lo + 1) * b).

(** The [k]-digit decimal [s * 10^(n-k)] that reads back as [x], if any: the
    candidates are the two multiples of [10^(n-k)] around [x]; the nearer one
    wins, an even [s] on a tie. *)
Definition candidate (x : float) (num den n k : Z) : option (Z * Z) :=
  let p := n - k in
  let '(lo, exact) := scaled_floor num den p in
  let hi := lo + 1 in
  let ok s := PrimFloat.eqb (decimal_to_float false s p) x in
  let norm s := if s =? 10 ^ k then (10 ^ (k - 1), n + 1) else (s, n) in
  if exact then Some (lo, n)
  else
    match ok lo, ok hi with
    | true, false => Some (lo, n)
    | false, true => Some (norm hi)
    | true, true =>
        match nearer_low num den lo p with
        | Lt => Some (lo, n)
        | Gt => Some (norm hi)
        | Eq => if Z.even lo then Some (lo, n) else Some (norm hi)
        end
    | false, false => None
    end.

(** The shortest digit string: [k] grows from 1 and the first length with a
    decimal that reads back wins, the nearest one of that length; 17 digits
    always suffice, so the last branch is never taken. *)
Fixpoint shortest (fuel : nat) (x : float) (num den n k : Z) : Z * Z * Z :=
  match candidate x num den n k with
  | Some (s, n') => (s, n', k)
  | None =>
      match fuel with
      | O => let '(lo, _) := scaled_floor num den (n - k) in (lo, n, k)
      | S fuel' => shortest fuel' x num den n (k + 1)
      end
  end.

Definition zeros (n : Z) : string := string_of_list_ascii (replicate (Z.to_nat n) "0"%char).

(** Number::toString for a positive finite [x]. *)
Definition toString_pos (x : float) : string :=
  let '(num, den) := exact_ratio x in
  let '(s, n, k) := shortest 16 x num den (decimal_exponent num den) 1 in
  let digits := string_of_Z s in
  if (k <=? n) && (n <=? 21) then digits +:+ zeros (n - k)
  else if (0 <? n) && (n <=? 21) then
    String.substring 0 (Z.to_nat n) digits +:+ "." +:+
    String.substring (Z.to_nat n) (Z.to_nat (k - n)) digits
  else if (-6 <? n) && (n <=? 0) then "0." +:+ zeros (- n) +:+ digits
  else
    let e := n - 1 in
    let tail := "e" +:+ (if e <? 0 then "-" else "+") +:+ string_of_Z (Z.abs e) in
    if k =? 1 then digits +:+ tail
    else String.substring 0 1 digits +:+ "." +:+
         String.substring 1 (Z.to_nat (k - 1)) digits +:+ tail.

(** [x.toString()] *)
Definition toString (x : float) : string :=
  if PrimFloat.is_nan x then "NaN"
  else if PrimFloat.eqb x 0 then "0"
  else
    let a := PrimFloat.abs x in
    let body := if PrimFloat.is_infinity a then "Infinity" else toString_pos a in
    if PrimFloat.ltb x 0 then "-" +:+ body else body.

(** The mantissa digits and exponent of [x.toExponential(f)] for a positive
    finite [x]: [10^f <= n < 10^(f+1)] with [n * 10^(e-f)] nearest to [x],
    the larger [n] on a tie. *)
Definition exponential_digits (f : Z) (x : float) : Z * Z :=
  let '(num, den) := exact_ratio x in
  let e := decimal_exponent num den - 1 in
  let '(lo, _) := scaled_floor num den (e - f) in
  let n := match nearer_low num den lo (e - f) with Lt => lo | _ => lo + 1 end in
  if n =? 10 ^ (f + 1) then (10 ^ f, e + 1) else (n, e).

(** [x.toExponential(f)] for [1 <= f <= 100]. *)
Definition toExponential (f : Z) (x : float) : string :=
  if PrimFloat.is_nan x then "NaN"
  else
    let a := PrimFloat.abs x in
    let sign := if PrimFloat.ltb x 0 then "-" else "" in
    if PrimFloat.is_infinity a then sign +:+ "Infinity"
    else
      let '(n, e) := if PrimFloat.eqb x 0 then (0, 0) else exponential_digits f a in
      let digits := if n =? 0 then zeros (f + 1) else string_of_Z n in
      sign +:+ String.substring 0 1 digits +:+ "." +:+
      String.substring 1 (Z.to_nat f) digits +:+
      "e" +:+ (if e <? 0 then "-" else "+") +:+ string_of_Z (Z.abs e).

End JS.

Local Open Scope nat_scope.

(** ** Completions of fallible code *)

(** The four [Error]s the evaluator throws, told apart by their message. *)
Inductive error : Set :=
  | InvalidNumber
  | InvalidExpression
  | DivideByZero
  | InvalidOperation.

Definition message (e : error) : string :=
  match e with
  | InvalidNumber => "Invalid number"
  | InvalidExpression => "Invalid expression"
  | DivideByZero => "Cannot divide by zero"
  | InvalidOperation => "Invalid operation"
  end.

(** How a call completes: normally with a value, or by a [throw]. *)
Inductive completion (A : Type) : Type :=
  | Normal (a : A)
  | Throw (e : error).
Arguments Normal {A} a.
Arguments Throw {A} e.

Global Instance completion_ret : MRet completion := @Normal.

Global Instance completion_bind : MBind completion := fun A B k r =>
  match r with
  | Normal a => k a
  | Throw e => Throw e
  end.

(** ** The state object *)

(** One line of the history box: [{ expression, result }]. *)
Record entry : Set := Entry {
  entry_expression : string;
  entry_result : string
}.

Record state : Set := State {
  currentInput : string;
  expression : list string;
  history : list entry;
  isResultDisplayed : bool
}.

Definition initial : state := State "" [] [] false.

(** ** formatResult (lines 10-18) *)

(** [1e7] is a binary64 value; [1e-7] is not, and the literal denotes the
    nearest one. *)
Definition formatResult (number : float) : string :=
  let numStr := JS.toString number in
  let absNum := PrimFloat.abs number in
  if (10 <? String.length (JS.remove_first "." numStr))
     || (PrimFloat.ltb 10000000 absNum
         || (PrimFloat.ltb absNum 0x1.ad7f29abcaf48p-24 && negb (PrimFloat.eqb absNum 0)))
  then JS.toExponential 4 number
  else numStr.

(** ** The expression builder (lines 21-84) *)

Definition appendNumber (digit : string) (st : state) : state :=
  let st :=
    if isResultDisplayed st then State "" [] (history st) false else st in
  if String.eqb digit "." && JS.includes "." (currentInput st) then st
  else State (currentInput st +:+ digit) (expression st) (history st)
             (isResultDisplayed st).

Definition appendOperator (op : string) (st : state) : state :=
  let st :=
    if isResultDisplayed st
    then State "" [currentInput st] (history st) false
    else st in
  if String.eqb (currentInput st) "" && negb (String.eqb op " - ") then st
  else
    let st :=
      if JS.truthy (currentInput st)
      then State "" (expression st ++ [currentInput st]) (history st)
                 (isResultDisplayed st)
      else st in
    State (currentInput st) (expression st ++ [JS.trim op]) (history st)
          (isResultDisplayed st).

Definition backspace (st : state) : state :=
  let st :=
    if isResultDisplayed st then State "" [] (history st) false else st in
  if JS.truthy (currentInput st) then
    State (JS.drop_last (currentInput st)) (expression st) (history st)
          (isResultDisplayed st)
  else if 0 <? length (expression st) then
    (* [pop()] twice; the second value, or [''] when it is missing or empty *)
    let popped := removelast (expression st) in
    State (default "" (last popped)) (removelast popped) (history st)
          (isResultDisplayed st)
  else st.

Definition clearDisplay (st : state) : state :=
  State "" [] (history st) false.

Definition clearAll (st : state) : state :=
  State "" [] [] false.

(** ** The evaluator (lines 131-189) *)

(** [['+', '-', '*', '/'].includes(token)] *)
Definition is_operator (token : string) : bool :=
  String.eqb token "+" || String.eqb token "-"
  || String.eqb token "*" || String.eqb token "/".

(** The parsing loop: operators and numbers go to the end of their arrays. *)
Fixpoint parse_tokens (tokens : list string) (numbers : list float)
    (operators : list string) : completion (list float * list string) :=
  match tokens with
  | [] => Normal (numbers, operators)
  | token :: rest =>
      if is_operator token then parse_tokens rest numbers (operators ++ [token])
      else
        let num := JS.parseFloat token in
        if JS.isNaN num then Throw InvalidNumber
        else parse_tokens rest (numbers ++ [num]) operators
  end.

(** The [precedence] table; a key that is not there reads [undefined]. *)
Definition precedence (op : string) : option nat :=
  if String.eqb op "+" then Some 1
  else if String.eqb op "-" then Some 1
  else if String.eqb op "*" then Some 2
  else if String.eqb op "/" then Some 2
  else None.

Definition applyOperator (op : string) (a b : float) : completion float :=
  if String.eqb op "+" then Normal (a + b)%float
  else if String.eqb op "-" then Normal (a - b)%float
  else if String.eqb op "*" then Normal (a * b)%float
  else if String.eqb op "/" then
    if PrimFloat.eqb b 0 then Throw DivideByZero else Normal (a / b)%float
  else Throw InvalidOperation.

(** An array read used as an operand.  Out of range it is [undefined], which
    every arithmetic operator turns into [NaN] and which is not [=== 0]. *)
Definition operand (numbers : list float) (i : nat) : float :=
  default nan (numbers !! i).

(** [numbers[i] = v]: in range the element is replaced; past the end the
    array grows, and the holes read [undefined]. *)
Definition array_set (i : nat) (v : float) (numbers : list float) : list float :=
  if i <? length numbers then <[i := v]> numbers
  else numbers ++ replicate (i - length numbers) nan ++ [v].

(** The first [while] loop: every [*] and [/] is applied where it is met and
    spliced out; [i] only moves past a [+] or [-]. *)
Equations? high_pass (i : nat) (numbers : list float) (operators : list string)
  : completion (list float * list string) by wf (2 * length operators - i) lt :=
high_pass i numbers operators with decide (i < length operators) := {
  | right _ := Normal (numbers, operators)
  | left Hlt with operators !! i := {
    | Some op with decide (precedence op = Some 2) := {
      | left _ with applyOperator op (operand numbers i) (operand numbers (i + 1)) := {
        | Throw e := Throw e
        | Normal v := high_pass i (delete (i + 1) (array_set i v numbers))
                    (delete i operators) }
      | right _ := high_pass (i + 1) numbers operators }
    | None := high_pass (i + 1) numbers operators } }.
Proof.
  all: try lia.
  rewrite length_delete by (apply lookup_lt_is_Some; lia). lia.
Qed.

(** The second loop: a left fold of what is left over the numbers. *)
Fixpoint low_pass (i : nat) (operators : list string) (numbers : list float)
    (result : float) : completion float :=
  match operators with
  | [] => Normal result
  | op :: rest =>
      r ← applyOperator op result (operand numbers (i + 1));
      low_pass (i + 1) rest numbers r
  end.

Definition evaluateExpression (expr : list string) : completion float :=
  '(numbers, operators) ← parse_tokens expr [] [];
  if (length numbers =? 1) && (length operators =? 0) then
    Normal (operand numbers 0)
  else if length numbers <=? length operators then Throw InvalidExpression
  else
    '(numbers, operators) ← high_pass 0 numbers operators;
    low_pass 0 operators numbers (operand numbers 0).

(** ** calculate (lines 103-128) *)

(** [history.push(e)], then [shift()] once the list is longer than ten. *)
Definition push_history (h : list entry) (e : entry) : list entry :=
  let h := h ++ [e] in
  if 10 <? length h then tail h else h.

(** The token sequence after the pending input has been pushed onto it. *)
Definition submitted (st : state) : list string :=
  if JS.truthy (currentInput st)
  then expression st ++ [currentInput st]
  else expression st.

(** The guard before the [try]: nothing to evaluate, or a single token whose
    number is falsy.  [parseFloat(undefined)] reads the text ["undefined"]. *)
Definition skipped (expr : list string) : bool :=
  (length expr <? 1)
  || ((length expr =? 1)
      && JS.falsy (JS.parseFloat (default "undefined" (expr !! 0)))).

Definition calculate (st : state) : state :=
  if isResultDisplayed st then st
  else
    let expr := submitted st in
    if skipped expr
    then State (currentInput st) expr (history st) (isResultDisplayed st)
    else
      match evaluateExpression expr with
      | Normal result =>
          let expressionStr := JS.join expr in
          let formattedResult := formatResult result in
          State formattedResult []
                (push_history (history st) (Entry expressionStr formattedResult))
                true
      | Throw err => State (message err) [] (history st) true
      end.

(** ** Notions the specification is stated with *)

(** A token the evaluator reads as a number: not one of the four operator
    characters, and [parseFloat] finds a number in it. *)
Definition is_number_token (t : string) : bool :=
  negb (is_operator t) && negb (JS.isNaN (JS.parseFloat t)).

Definition count_numbers (tokens : list string) : nat :=
  length (List.filter is_number_token tokens).

Definition count_operators (tokens : list string) : nat :=
  length (List.filter is_operator tokens).

(** Every token is an operator or a number: nothing makes the parsing loop
    throw. *)
Definition all_classified (tokens : list string) : Prop :=
  Forall (fun t => is_operator t || is_number_token t = true) tokens.

(** The tagged form of an operator token. *)
Inductive binop : Set := Add | Sub | Mul | Div.

Definition binop_token (o : binop) : string :=
  match o with
  | Add => "+"
  | Sub => "-"
  | Mul => "*"
  | Div => "/"
  end.

(** The well-formed sequence [n0 op1 n1 op2 n2 ...]. *)
Definition alternating (n0 : string) (rest : list (binop * string)) : list string :=
  n0 :: flat_map (fun p => [binop_token p.1; p.2]) rest.

Definition parse_operands (rest : list (binop * string)) : list (binop * float) :=
  map (fun p => (p.1, JS.parseFloat p.2)) rest.

Definition apply_binop (o : binop) (a b : float) : completion float :=
  match o with
  | Add => Normal (a + b)%float
  | Sub => Normal (a - b)%float
  | Mul => Normal (a * b)%float
  | Div => if PrimFloat.eqb b 0 then Throw DivideByZero else Normal (a / b)%float
  end.

Definition multiplicative (o : binop) : bool :=
  match o with
  | Mul | Div => true
  | Add | Sub => false
  end.

(** Two-tier precedence as the specification words it.  First tier: going
    left to right, every [*] and [/] is applied to the value built so far
    and its right neighbour; a [+] or [-] closes the value and stays. *)
Fixpoint collapse (acc : float) (rest : list (binop * float))
  : completion (float * list (binop * float)) :=
  match rest with
  | [] => Normal (acc, [])
  | (o, n) :: rest' =>
      if multiplicative o then
        v ← apply_binop o acc n; collapse v rest'
      else
        '(t, ts) ← collapse n rest'; Normal (acc, (o, t) :: ts)
  end.

(** Second tier: what is left is folded from the first value. *)
Fixpoint fold_remaining (acc : float) (rest : list (binop * float))
  : completion float :=
  match rest with
  | [] => Normal acc
  | (o, n) :: rest' => v ← apply_binop o acc n; fold_remaining v rest'
  end.

Definition two_tier (n0 : float) (rest : list (binop * float)) : completion float :=
  '(first, remaining) ← collapse n0 rest; fold_remaining first remaining.

(** The two arrays the parsing loop makes of [op1 n1 op2 n2 ...]. *)
Definition operand_values (rest : list (binop * float)) : list float :=
  map snd rest.

Definition operator_tokens (rest : list (binop * float)) : list string :=
  map (fun p => binop_token p.1) rest.

(** A text that opens with a digit or a point, as every finite number's does
    once its sign is set aside. *)
Definition numeral_head (s : string) : bool :=
  match s with
  | String c _ => JS.is_digit c || Ascii.eqb c "."
  | EmptyString => false
  end.

(** ** The calculator as a transition system *)

(** What the buttons and the key handler can ask for. *)
Inductive action : Set :=
  | AppendNumber (digit : string)
  | AppendOperator (op : string)
  | Backspace
  | ClearDisplay
  | ClearAll
  | Calculate.

Definition step (st : state) (a : action) : state :=
  match a with
  | AppendNumber digit => appendNumber digit st
  | AppendOperator op => appendOperator op st
  | Backspace => backspace st
  | ClearDisplay => clearDisplay st
  | ClearAll => clearAll st
  | Calculate => calculate st
  end.

(** The five operations of the expression builder. *)
Definition builder (a : action) : Prop :=
  match a with
  | Calculate => False
  | _ => True
  end.

(** States reached from the initial one by actions that [allowed] admits in
    the state they are taken in. *)
Inductive reachable_via (allowed : state -> action -> Prop) : state -> Prop :=
  | reachable_initial : reachable_via allowed initial
  | reachable_step st a :
      reachable_via allowed st -> allowed st a ->
      reachable_via allowed (step st a).

(** No restriction on the actions at all. *)
Definition reachable : state -> Prop := reachable_via (fun _ _ => True).

Definition run (st : state) (actions : list action) : state :=
  fold_left step actions st.

(** The record a [calculate] adds to the history, when it adds one. *)
Definition computed_entry (st : state) : option entry :=
  if isResultDisplayed st || skipped (submitted st) then None
  else
    match evaluateExpression (submitted st) with
    | Normal result =>
        Some (Entry (JS.join (submitted st)) (formatResult result))
    | Throw _ => None
    end.

(** The records of the successful computations of a run, in order. *)
Fixpoint computed (st : state) (actions : list action) : list entry :=
  match actions with
  | [] => []
  | a :: rest =>
      match a with
      | Calculate => option_list (computed_entry st)
      | _ => []
      end ++ computed (step st a) rest
  end.

Definition keep_last {A : Type} (n : nat) (l : list A) : list A :=
  drop (length l - n) l.

(** The alternation the token sequence is meant to keep. *)
Definition starts_with_operator (tokens : list string) : bool :=
  match tokens with
  | t :: _ => is_operator t
  | [] => false
  end.

Fixpoint adjacent_operators (tokens : list string) : bool :=
  match tokens with
  | a :: rest =>
      match rest with
      | b :: _ => (is_operator a && is_operator b) || adjacent_operators rest
      | [] => false
      end
  | [] => false
  end.

Definition well_alternated (tokens : list string) : Prop :=
  starts_with_operator tokens = false /\ adjacent_operators tokens = false.

(** A text that begins with one of the four operator characters: what
    [backspace] can cut down to an operator token. *)
Definition operator_char (c : ascii) : bool :=
  match c with
  | "+" | "-" | "*" | "/" => true
  | _ => false
  end%char.

Definition operator_led (s : string) : bool :=
  match s with
  | String c _ => operator_char c
  | EmptyString => false
  end.

(** The actions under which the alternation is kept.  A number key does not
    begin with an operator character.  The padded minus, which the guard of
    [appendOperator] lets through on an empty input, is pressed on a
    displayed result that does not begin with an operator character, or
    while a number is being typed, or on an empty input when the token
    sequence is one token that does not begin with an operator character.
    Every other operator, and every other action, is free. *)
Definition alternation_keys (st : state) (a : action) : Prop :=
  match a with
  | AppendNumber digit => operator_led digit = false
  | AppendOperator op =>
      op = " - " ->
      if isResultDisplayed st then operator_led (currentInput st) = false
      else currentInput st <> ""
           \/ exists x, expression st = [x] /\ operator_led x = false
  | _ => True
  end.

(** The shape the token sequence then has: at most one leading token that is
    not an operator, then pairs of a number that does not begin with an
    operator character and what was pushed after it. *)
Definition pairs_tokens (pairs : list (string * string)) : list string :=
  flat_map (fun p => [p.1; p.2]) pairs.

Definition paired (tokens : list string) : Prop :=
  exists (lead : list string) (pairs : list (string * string)),
    tokens = lead ++ pairs_tokens pairs
    /\ length lead <= 1
    /\ Forall (fun t => is_operator t = false) lead
    /\ Forall (fun p => operator_led p.1 = false) pairs.

Definition builder_invariant (st : state) : Prop :=
  paired (expression st)
  /\ (if isResultDisplayed st
      then is_operator (currentInput st) = false
      else operator_led (currentInput st) = false).

(** An operator key passes one of the four operators, whatever its padding. *)
Definition operator_key (a : action) : Prop :=
  match a with
  | AppendOperator op => is_operator (JS.trim op) = true
  | _ => True
  end.

(** The keys of the calculator, under the restriction on the minus. *)
Definition calculator_keys (st : state) (a : action) : Prop :=
  alternation_keys st a /\ operator_key a.

(** Every token pushed after a number is an operator. *)
Definition closed_by_operator (tokens : list string) : Prop :=
  exists (lead : list string) (pairs : list (string * string)),
    tokens = lead ++ pairs_tokens pairs /\ length lead <= 1
    /\ Forall (fun p => is_operator p.2 = true) pairs.

(** A negative result, a minus on it, and the result cut down to its sign. *)
Definition minus_on_negative_result : list action :=
  [AppendNumber "0"; AppendOperator " - "; AppendNumber "5"; Calculate;
   AppendOperator " - "; Backspace; Backspace; AppendOperator " + "].

(** A result, and a minus on it. *)
Definition minus_on_result : list action :=
  [AppendNumber "3"; AppendOperator " + "; AppendNumber "4"; Calculate].

(** Eleven one-number computations, keyed in one after the other. *)
Definition key_in (digits : list string) : list action :=
  map AppendNumber digits ++ [Calculate].

Definition eleven_computations : list action :=
  flat_map key_in
    [["1"]; ["2"]; ["3"]; ["4"]; ["5"]; ["6"]; ["7"]; ["8"]; ["9"];
     ["1"; "0"]; ["1"; "1"]].

(** The decimal digits of a number's text. *)
Definition count_digits (s : string) : nat :=
  length (List.filter JS.is_digit (list_ascii_of_string s)).

(** [0 - 1234567.125], keyed in and computed. *)
Definition negative_ten_digits : list action :=
  [AppendNumber "0"; AppendOperator " - "] ++
  map AppendNumber ["1"; "2"; "3"; "4"; "5"; "6"; "7"; "."; "1"; "2"; "5"] ++
  [Calculate].

(** A result left on display, then an operator key other than minus. *)
Definition operator_after_result : list action :=
  [AppendNumber "3"; AppendOperator " + "; AppendNumber "4"; Calculate;
   AppendOperator " + "].

(** ** updateDisplay and updateHistory (lines 87-100) *)

(** [a || b] on strings. *)
Definition or_else (a b : string) : string := if JS.truthy a then a else b.

(** The text [updateDisplay] writes into the display. *)
Definition display_text (st : state) : string :=
  if isResultDisplayed st then or_else (currentInput st) "0"
  else or_else (JS.join (expression st) +:+ currentInput st) "0".

(** One record of the history box. *)
Definition history_line (h : entry) : string :=
  "<div>" +:+ entry_expression h +:+ " = " +:+ entry_result h +:+ "</div>".

(** The markup [updateHistory] writes into the history box. *)
Definition history_html (st : state) : string :=
  JS.join (map history_line (history st)).

(** ** The page *)

(** What the two elements written by [updateDisplay] and [updateHistory]
    hold: the [innerText] of the display and the [innerHTML] of the history
    box. *)
Record page := Page {
  display : string;
  history_box : string
}.

Definition updateDisplay (st : state) : page :=
  Page (display_text st) (history_html st).

(** Whether an action taken in [st] gets as far as its call of
    [updateDisplay]: [appendNumber] returns before it on a second point
    (line 28), [appendOperator] on an operator it rejects (line 41),
    [calculate] on a displayed result (line 104) and on a skipped sequence
    (line 108). *)
Definition refreshes (st : state) (a : action) : bool :=
  match a with
  | AppendNumber digit =>
      let input := if isResultDisplayed st then "" else currentInput st in
      negb (String.eqb digit "." && JS.includes "." input)
  | AppendOperator op =>
      let input := if isResultDisplayed st then "" else currentInput st in
      negb (String.eqb input "" && negb (String.eqb op " - "))
  | Backspace | ClearDisplay | ClearAll => true
  | Calculate => negb (isResultDisplayed st) && negb (skipped (submitted st))
  end.

(** The state object together with what the page shows. *)
Record view := View {
  model : state;
  screen : page
}.

Definition view_step (v : view) (a : action) : view :=
  View (step (model v) a)
       (if refreshes (model v) a then updateDisplay (step (model v) a)
        else screen v).

Definition view_run (v : view) (actions : list action) : view :=
  fold_left view_step actions v.

(** The page shows the state as [updateDisplay] would write it. *)
Definition up_to_date (v : view) : Prop := screen v = updateDisplay (model v).

(** ** The key handler (lines 201-221) *)

(** [/[0-9]/.test(key)]: some character of the key's name is a digit. *)
Fixpoint has_digit (key : string) : bool :=
  match key with
  | String c r => JS.is_digit c || has_digit r
  | EmptyString => false
  end.

(** The call the handler makes for a key, if it makes one. *)
Definition keydown (key : string) (shiftKey : bool) : option action :=
  if has_digit key then Some (AppendNumber key)
  else if String.eqb key "+" || String.eqb key "-"
          || String.eqb key "*" || String.eqb key "/"
  then Some (AppendOperator (" " +:+ key +:+ " "))
  else if String.eqb key "." then Some (AppendNumber ".")
  else if String.eqb key "Enter" then Some Calculate
  else if String.eqb key "Backspace" then Some Backspace
  else if String.eqb key "Escape"
  then Some (if shiftKey then ClearAll else ClearDisplay)
  else None.

Definition press (st : state) (key : string) : state :=
  match keydown key false with
  | Some a => step st a
  | None => st
  end.

(** The keys of a text pressed one after the other, one character each. *)
Definition type_text (st : state) (text : string) : state :=
  fold_left (fun st c => press st (String c EmptyString))
            (list_ascii_of_string text) st.

(** ** Notions for the behaviour of typed input *)

(** How many points a text holds. *)
Fixpoint count_points (s : string) : nat :=
  match s with
  | String c r => (if Ascii.eqb c "." then 1 else 0) + count_points r
  | EmptyString => 0
  end.

(** Text made of digits and points only. *)
Fixpoint number_keys (s : string) : bool :=
  match s with
  | String c r => (JS.is_digit c || Ascii.eqb c ".") && number_keys r
  | EmptyString => true
  end.

(** A number as the digit and point keys spell it: not empty, digits and
    at most one point. *)
Definition typed_number (s : string) : bool :=
  number_keys s && (count_points s <=? 1) && JS.truthy s.

(** The tagged form of an operator token, if it is one. *)
Definition token_binop (t : string) : option binop :=
  if String.eqb t "+" then Some Add
  else if String.eqb t "-" then Some Sub
  else if String.eqb t "*" then Some Mul
  else if String.eqb t "/" then Some Div
  else None.

(** A state in which the next digit starts a new expression. *)
Definition fresh (st : state) : Prop :=
  isResultDisplayed st = true
  \/ (currentInput st = "" /\ expression st = []).

(** What [calculate] leaves when it gets to evaluate [expr]. *)
Definition committed (st : state) (expr : list string) : state :=
  match evaluateExpression expr with
  | Normal result =>
      State (formatResult result) []
            (push_history (history st) (Entry (JS.join expr) (formatResult result)))
            true
  | Throw err => State (message err) [] (history st) true
  end.

(** The text of a well-formed expression, as it is keyed in. *)
Definition expression_text (n0 : string) (rest : list (binop * string)) : string :=
  JS.join (alternating n0 rest).

(** A token the parsing loop throws on. *)
Definition unreadable (t : string) : Prop :=
  is_operator t = false /\ JS.isNaN (JS.parseFloat t) = true.

(** The number still in the input buffer once [n0 op1 n1 ...] is keyed in,
    and the tokens committed before it. *)
Definition pending_number (n0 : string) (rest : list (binop * string)) : string :=
  default n0 (snd <$> last rest).

Definition committed_tokens (n0 : string) (rest : list (binop * string))
  : list string :=
  removelast (alternating n0 rest).

(** The keys that keep a number to one point: the point key itself, number
    keys whose text has no point, operators without one. *)
Definition point_keys (st : state) (a : action) : Prop :=
  match a with
  | AppendNumber digit => digit = "." \/ count_points digit = 0
  | AppendOperator op => count_points (JS.trim op) = 0
  | _ => True
  end.

(** No text of the state holds two points. *)
Definition one_point (st : state) : Prop :=
  count_points (currentInput st) <= 1
  /\ Forall (fun t => count_points t <= 1) (expression st).

(** * The built-ins on known values *)

Example parseFloat_values :
  map JS.parseFloat ["14"; "0.5"; ".5"; "5."; "-0"; "12.5abc"; "Infinity"; "1.2346e+11"]
  = [14; 0.5; 0.5; 5; -0; 12.5; infinity; 123460000000]%float.
Proof. vm_compute. reflexivity. Qed.

Example parseFloat_not_a_number :
  map (fun t => JS.isNaN (JS.parseFloat t))
      [""; "."; "+"; "NaN"; "Invalid expression"; "undefined"]
  = [true; true; true; true; true; true].
Proof. vm_compute. reflexivity. Qed.

Example parseFloat_rounds_to_nearest :
  JS.parseFloat "0.1" = 0x1.999999999999ap-4%float
  /\ JS.parseFloat "1e-7" = 0x1.ad7f29abcaf48p-24%float
  /\ JS.parseFloat "9007199254740993" = 9007199254740992%float.
Proof. vm_compute. repeat split. Qed.

Example toString_values :
  map JS.toString
      [14; 0.5; -5; 0x1.999999999999ap-4; 0x1.3333333333334p-2; 123456789012;
       1e21; 0x1.ad7f29abcaf48p-24; 0x1.5555555555555p-2; -0; infinity; nan]%float
  = ["14"; "0.5"; "-5"; "0.1"; "0.30000000000000004"; "123456789012";
     "1e+21"; "1e-7"; "0.3333333333333333"; "0"; "Infinity"; "NaN"].
Proof. vm_compute. reflexivity. Qed.

(** Seventeen digits: the nearest decimal, not the one below. *)
Example toString_seventeen_digits :
  map JS.toString
      [JS.parseFloat "1.1" * JS.parseFloat "1.1";
       JS.parseFloat "0.1" + JS.parseFloat "0.2";
       0x1.fffffffffffffp+1023; 0x1.0000000000001p+0;
       0x1.c7ae147ae147bp-1]%float
  = ["1.2100000000000002"; "0.30000000000000004"; "1.7976931348623157e+308";
     "1.0000000000000002"; "0.89"].
Proof. vm_compute. reflexivity. Qed.

Example toExponential_values :
  map (JS.toExponential 4)
      [123456789012; 14; 0; 0x1.999999999999ap-4; -1234567.125; 99999.5;
       neg_infinity]%float
  = ["1.2346e+11"; "1.4000e+1"; "0.0000e+0"; "1.0000e-1"; "-1.2346e+6";
     "1.0000e+5"; "-Infinity"].
Proof. vm_compute. reflexivity. Qed.

Example formatResult_values :
  map formatResult [14; 8; 123456789012; 0.5; 10000000; 10000001]%float
  = ["14"; "8"; "1.2346e+11"; "0.5"; "10000000"; "1.0000e+7"].
Proof. vm_compute. reflexivity. Qed.

(** * Facts about the evaluator *)

(** Settles a boolean test between lengths: [nat_test b v] replaces [b] by
    the truth value [v] once [lia] agrees. *)
Ltac nat_test b v :=
  replace b with v
    by (symmetry;
        first [ apply Nat.ltb_lt | apply Nat.ltb_ge | apply Nat.leb_le
              | apply Nat.leb_gt | apply Nat.eqb_eq | apply Nat.eqb_neq ];
        rewrite ?length_app; simpl; lia).

Section Parsing.

Lemma parse_tokens_classified tokens numbers operators :
  all_classified tokens ->
  parse_tokens tokens numbers operators =
    Normal (numbers ++ map JS.parseFloat (List.filter is_number_token tokens),
            operators ++ List.filter is_operator tokens).
Proof.
  intros Hall. revert numbers operators.
  induction Hall as [|t tokens Ht _ IH]; intros numbers operators; simpl.
  - by rewrite !app_nil_r.
  - unfold is_number_token in *.
    destruct (is_operator t) eqn:Hop; simpl in *.
    + rewrite IH. by rewrite <- app_assoc.
    + destruct (JS.isNaN (JS.parseFloat t)); [done|]. simpl.
      rewrite IH. by rewrite <- app_assoc.
Qed.

(** Past the two checks the evaluator is its two loops. *)
Lemma evaluate_parsed tokens numbers operators :
  parse_tokens tokens [] [] = Normal (numbers, operators) ->
  0 < length operators < length numbers ->
  evaluateExpression tokens
  = '(numbers', operators') ← high_pass 0 numbers operators;
    low_pass 0 operators' numbers' (operand numbers' 0).
Proof.
  intros Hparse [Hpos Hlt]. unfold evaluateExpression. rewrite Hparse.
  cbn [mbind completion_bind].
  nat_test (length operators =? 0) false. rewrite andb_false_r.
  by nat_test (length numbers <=? length operators) false.
Qed.

End Parsing.

(** C9: a sequence of exactly one number token and no operator evaluates to
    that number, unchanged. *)
Theorem single_number_identity t :
  is_number_token t = true ->
  evaluateExpression [t] = Normal (JS.parseFloat t).
Proof.
  unfold is_number_token, evaluateExpression. simpl.
  intros [Hop Hnan]%andb_prop.
  apply negb_true_iff in Hop, Hnan. by rewrite Hop, Hnan.
Qed.

Lemma single_number_identity_witness :
  evaluateExpression ["7"] = Normal (JS.parseFloat "7").
Proof. apply (single_number_identity "7"). vm_compute. reflexivity. Defined.

(** C1, as the code has it: when every token is an operator or a number and
    the numbers are no more than the operators, evaluation throws
    'Invalid expression'. *)
Theorem too_few_numbers_invalid tokens :
  all_classified tokens ->
  count_numbers tokens <= count_operators tokens ->
  evaluateExpression tokens = Throw InvalidExpression.
Proof.
  intros Hall Hle. unfold evaluateExpression.
  rewrite parse_tokens_classified by done. simpl.
  fold (count_operators tokens). rewrite length_map. fold (count_numbers tokens).
  destruct (count_numbers tokens =? 1) eqn:H1;
    destruct (count_operators tokens =? 0) eqn:H0; simpl;
    try (apply Nat.eqb_eq in H1); try (apply Nat.eqb_eq in H0); try lia;
    by apply Nat.leb_le in Hle as ->.
Qed.

Lemma too_few_numbers_invalid_witness :
  evaluateExpression ["3"; "+"] = Throw InvalidExpression.
Proof.
  apply (too_few_numbers_invalid ["3"; "+"]).
  - repeat constructor.
  - vm_compute. lia.
Defined.

(** C1 as stated fails: two number tokens and no operator are not the
    single-number case and are one number too many, yet the evaluator
    returns the first number. *)
Lemma two_numbers_not_rejected :
  all_classified ["2"; "3"]
  /\ count_numbers ["2"; "3"] = 2
  /\ count_operators ["2"; "3"] = 0
  /\ evaluateExpression ["2"; "3"] = Normal 2%float.
Proof. split; [repeat constructor|]. vm_compute. repeat split. Qed.

(** ** The first loop, one iteration at a time *)

Lemma high_pass_step i numbers operators :
  high_pass i numbers operators =
    if decide (i < length operators) then
      match operators !! i with
      | Some op =>
          if decide (precedence op = Some 2) then
            v ← applyOperator op (operand numbers i) (operand numbers (i + 1));
            high_pass i (delete (i + 1) (array_set i v numbers)) (delete i operators)
          else high_pass (i + 1) numbers operators
      | None => high_pass (i + 1) numbers operators
      end
    else Normal (numbers, operators).
Proof.
  etrans; [apply high_pass_unfold_eq|].
  with_strategy transparent [high_pass_unfold] unfold high_pass_unfold.
  destruct (decide (i < length operators)) as [Hlt|Hge]; simpl; [|done].
  destruct (operators !! i) as [op|] eqn:Hop; simpl; [|done].
  destruct (decide (precedence op = Some 2)); simpl; [|done].
  by destruct (applyOperator op (operand numbers i) (operand numbers (i + 1))).
Qed.

Section Arrays.

Lemma operand_middle lead x rest i :
  i = length lead -> operand (lead ++ x :: rest) i = x.
Proof. intros ->. unfold operand. by rewrite list_lookup_middle. Qed.

Lemma operand_after_middle lead x y rest i :
  i = length lead -> operand (lead ++ x :: y :: rest) (i + 1) = y.
Proof.
  intros ->. unfold operand.
  replace (lead ++ x :: y :: rest) with ((lead ++ [x]) ++ y :: rest)
    by (by rewrite <- app_assoc).
  rewrite list_lookup_middle; [done|].
  rewrite length_app. simpl. lia.
Qed.

Lemma array_set_middle lead x v rest i :
  i = length lead -> array_set i v (lead ++ x :: rest) = lead ++ v :: rest.
Proof.
  intros ->. unfold array_set.
  nat_test (length lead <? length (lead ++ x :: rest)) true.
  rewrite insert_app_r_alt, Nat.sub_diag by lia. done.
Qed.

Lemma delete_after_middle {A} (lead : list A) x y rest i :
  i = length lead -> delete (i + 1) (lead ++ x :: y :: rest) = lead ++ x :: rest.
Proof.
  intros ->. replace (lead ++ x :: y :: rest) with ((lead ++ [x]) ++ y :: rest)
    by (by rewrite <- app_assoc).
  replace (length lead + 1) with (length (lead ++ [x]))
    by (rewrite length_app; simpl; lia).
  rewrite delete_middle. by rewrite <- app_assoc.
Qed.

End Arrays.

(** ** Two-tier precedence *)

Section TwoTier.

Lemma applyOperator_binop o a b :
  applyOperator (binop_token o) a b = apply_binop o a b.
Proof. by destruct o. Qed.

Lemma precedence_binop o :
  precedence (binop_token o) = Some 2 <-> multiplicative o = true.
Proof. destruct o; simpl; split; intros; done. Qed.

Lemma is_operator_binop o : is_operator (binop_token o) = true.
Proof. by destruct o. Qed.

Lemma parse_tokens_pairs rest numbers operators :
  Forall (fun p => is_number_token p.2 = true) rest ->
  parse_tokens (flat_map (fun p => [binop_token p.1; p.2]) rest) numbers operators
  = Normal (numbers ++ operand_values (parse_operands rest),
            operators ++ operator_tokens (parse_operands rest)).
Proof.
  intros Hall. revert numbers operators.
  induction Hall as [|[o n] rest Hn _ IH]; intros numbers operators; simpl.
  - by rewrite !app_nil_r.
  - rewrite is_operator_binop.
    apply andb_prop in Hn as [Hop Hnan]. simpl in *.
    apply negb_true_iff in Hop, Hnan. rewrite Hop, Hnan.
    rewrite IH. by rewrite <- !app_assoc.
Qed.

Lemma high_pass_collapse rest : forall lead_n lead_o acc,
  length lead_n = length lead_o ->
  high_pass (length lead_o) (lead_n ++ acc :: operand_values rest)
            (lead_o ++ operator_tokens rest)
  = '(t, ts) ← collapse acc rest;
    Normal (lead_n ++ t :: operand_values ts, lead_o ++ operator_tokens ts).
Proof.
  induction rest as [|[o n] rest IH]; intros lead_n lead_o acc Hlen;
    rewrite high_pass_step; simpl.
  - rewrite app_nil_r. by rewrite decide_False by lia.
  - rewrite decide_True by (rewrite length_app; simpl; lia).
    rewrite list_lookup_middle by done.
    rewrite operand_middle, operand_after_middle by done.
    destruct (multiplicative o) eqn:Hmul.
    + rewrite decide_True by (by apply precedence_binop).
      rewrite applyOperator_binop.
      destruct (apply_binop o acc n) as [v|e]; simpl; [|done].
      rewrite array_set_middle, delete_after_middle, delete_middle by done.
      by apply IH.
    + rewrite decide_False
        by (rewrite precedence_binop; by rewrite Hmul).
      specialize (IH (lead_n ++ [acc]) (lead_o ++ [binop_token o]) n).
      rewrite !length_app, <- !app_assoc in IH. simpl in IH.
      rewrite IH by lia.
      destruct (collapse n rest) as [[t ts]|e]; simpl; [|done].
      by rewrite <- !app_assoc.
Qed.

Lemma low_pass_fold rest : forall lead i acc,
  length lead = i + 1 ->
  low_pass i (operator_tokens rest) (lead ++ operand_values rest) acc
  = fold_remaining acc rest.
Proof.
  induction rest as [|[o n] rest IH]; intros lead i acc Hlen; simpl; [done|].
  rewrite applyOperator_binop.
  unfold operand at 1. rewrite list_lookup_middle by done. simpl.
  destruct (apply_binop o acc n) as [v|e]; simpl; [|done].
  specialize (IH (lead ++ [n]) (i + 1) v).
  rewrite <- app_assoc in IH. apply IH.
  rewrite length_app. simpl. lia.
Qed.

End TwoTier.

(** C3: on a well-formed sequence [n0 op1 n1 op2 n2 ...] the evaluator
    returns what two-tier precedence gives: every [*] and [/] collapsed from
    left to right first, then the remaining [+] and [-] folded from the first
    remaining number. *)
Theorem evaluate_two_tier n0 rest :
  is_number_token n0 = true ->
  Forall (fun p => is_number_token p.2 = true) rest ->
  evaluateExpression (alternating n0 rest)
  = two_tier (JS.parseFloat n0) (parse_operands rest).
Proof.
  intros [Hop Hnan]%andb_prop Hrest. apply negb_true_iff in Hop, Hnan.
  destruct rest as [|[o n] rest].
  { unfold alternating, evaluateExpression. simpl. by rewrite Hop, Hnan. }
  set (ops := parse_operands ((o, n) :: rest)).
  rewrite (evaluate_parsed _ (JS.parseFloat n0 :: operand_values ops)
             (operator_tokens ops)).
  - pose proof (high_pass_collapse ops [] [] (JS.parseFloat n0) eq_refl) as Hhigh.
    change (high_pass 0 (JS.parseFloat n0 :: operand_values ops) (operator_tokens ops)
            = '(t, ts) ← collapse (JS.parseFloat n0) ops;
              Normal (t :: operand_values ts, operator_tokens ts)) in Hhigh.
    rewrite Hhigh.
    unfold two_tier.
    destruct (collapse (JS.parseFloat n0) ops) as [[t ts]|e]; simpl; [|done].
    by apply (low_pass_fold ts [t] 0).
  - unfold alternating. cbn [parse_tokens]. rewrite Hop, Hnan.
    by rewrite parse_tokens_pairs.
  - subst ops. unfold operand_values, operator_tokens, parse_operands.
    simpl. rewrite !length_map. lia.
Qed.


Lemma evaluate_two_tier_witness :
  evaluateExpression ["2"; "+"; "3"; "*"; "4"] = Normal 14%float
  /\ evaluateExpression ["10"; "-"; "4"; "/"; "2"] = Normal 8%float.
Proof.
  split.
  - etrans; [apply (evaluate_two_tier "2" [(Add, "3"); (Mul, "4")])|].
    + vm_compute. reflexivity.
    + repeat constructor.
    + vm_compute. reflexivity.
  - etrans; [apply (evaluate_two_tier "10" [(Sub, "4"); (Div, "2")])|].
    + vm_compute. reflexivity.
    + repeat constructor.
    + vm_compute. reflexivity.
Defined.

(** ** The first loop: what it throws and what it keeps *)

Section FirstLoop.

Lemma applyOperator_high_throws op a b e :
  precedence op = Some 2 ->
  applyOperator op a b = Throw e -> e = DivideByZero.
Proof.
  unfold precedence, applyOperator.
  destruct (String.eqb op "+"); [done|].
  destruct (String.eqb op "-"); [done|].
  destruct (String.eqb op "*"); [done|].
  destruct (String.eqb op "/"); [|done].
  destruct (PrimFloat.eqb b 0); congruence.
Qed.

Lemma applyOperator_zero_divisor a z :
  PrimFloat.eqb z 0 = true -> applyOperator "/" a z = Throw DivideByZero.
Proof. intros Hz. unfold applyOperator. simpl. by rewrite Hz. Qed.

Lemma array_set_lookup_ne i j v numbers :
  i < length numbers -> i <> j -> array_set i v numbers !! j = numbers !! j.
Proof.
  intros Hlt Hne. unfold array_set.
  nat_test (i <? length numbers) true.
  by apply list_lookup_insert_ne.
Qed.

Lemma high_pass_zero_divisor m : forall j numbers operators i z,
  2 * length operators - j <= m ->
  j <= i ->
  operators !! i = Some "/" ->
  numbers !! (i + 1) = Some z ->
  PrimFloat.eqb z 0 = true ->
  high_pass j numbers operators = Throw DivideByZero.
Proof.
  induction m as [|m IH]; intros j numbers operators i z Hm Hji Hop Hnum Hz;
    pose proof (lookup_lt_Some _ _ _ Hop) as Hi;
    pose proof (lookup_lt_Some _ _ _ Hnum) as Hi'; [lia|].
  rewrite high_pass_step, decide_True by lia.
  destruct (lookup_lt_is_Some_2 operators j) as [op Hj]; [lia|]. rewrite Hj.
  destruct (decide (precedence op = Some 2)) as [Hhigh|Hlow].
  - destruct (decide (j = i)) as [->|Hne].
    + assert (op = "/") as -> by congruence.
      unfold operand at 2. rewrite Hnum. simpl.
      by rewrite applyOperator_zero_divisor.
    + destruct (applyOperator op _ _) as [v|e] eqn:Happ; simpl.
      * apply (IH _ _ _ (i - 1) z).
        -- rewrite length_delete by (by eexists). lia.
        -- lia.
        -- rewrite list_lookup_delete_ge by lia.
           by replace (S (i - 1)) with i by lia.
        -- rewrite list_lookup_delete_ge by lia.
           rewrite array_set_lookup_ne by lia.
           by replace (S (i - 1 + 1)) with (i + 1) by lia.
        -- done.
      * by rewrite (applyOperator_high_throws _ _ _ _ Hhigh Happ).
  - apply (IH _ _ _ i z); try done; [lia|].
    destruct (decide (j = i)) as [->|]; [|lia].
    assert (op = "/") as -> by congruence. done.
Qed.

(** The first loop keeps the surplus of numbers over operators that the
    validation asked for, so every [numbers[i]] and [numbers[i + 1]] it and
    the second loop read is in range. *)
Lemma high_pass_surplus m : forall i numbers operators numbers' operators',
  2 * length operators - i <= m ->
  length operators < length numbers ->
  high_pass i numbers operators = Normal (numbers', operators') ->
  length numbers' - length operators' = length numbers - length operators
  /\ length operators' < length numbers'.
Proof.
  induction m as [|m IH]; intros i numbers operators numbers' operators' Hm Hlen;
    rewrite high_pass_step; destruct (decide (i < length operators)) as [Hi|Hi];
    try lia; try (intros [= <- <-]; lia).
  destruct (lookup_lt_is_Some_2 operators i Hi) as [op Hop]. rewrite Hop.
  destruct (decide (precedence op = Some 2)); [|apply IH; lia].
  destruct (applyOperator op _ _) as [v|err]; simpl; [|done].
  intros Hrec. apply IH in Hrec.
  - revert Hrec. unfold array_set. nat_test (i <? length numbers) true.
    rewrite !length_delete, length_insert
      by (apply lookup_lt_is_Some; rewrite ?length_insert; lia).
    lia.
  - rewrite length_delete by (by eexists). lia.
  - unfold array_set. nat_test (i <? length numbers) true.
    rewrite !length_delete, length_insert
      by (apply lookup_lt_is_Some; rewrite ?length_insert; lia).
    lia.
Qed.

End FirstLoop.

(** C4: once the tokens are parsed and validated, a [/] whose right operand
    (the number one place after it in the number array, which is what it is
    applied to) is zero makes the evaluation throw 'Cannot divide by zero',
    whatever the other operators are. *)
Theorem zero_divisor_throws tokens numbers operators i z :
  parse_tokens tokens [] [] = Normal (numbers, operators) ->
  length operators < length numbers ->
  operators !! i = Some "/" ->
  numbers !! (i + 1) = Some z ->
  PrimFloat.eqb z 0 = true ->
  evaluateExpression tokens = Throw DivideByZero.
Proof.
  intros Hparse Hlen Hop Hnum Hz.
  pose proof (lookup_lt_Some _ _ _ Hop).
  rewrite (evaluate_parsed _ _ _ Hparse) by lia.
  by rewrite (high_pass_zero_divisor _ 0 numbers operators i z (Nat.le_refl _))
    by (done || lia).
Qed.

Lemma zero_divisor_throws_witness :
  evaluateExpression ["5"; "/"; "0"] = Throw DivideByZero
  /\ evaluateExpression ["8"; "*"; "2"; "/"; "0"; "+"; "1"] = Throw DivideByZero.
Proof.
  split.
  - apply (zero_divisor_throws _ [5; 0]%float ["/"] 0 0%float);
      vm_compute; (reflexivity || lia).
  - apply (zero_divisor_throws _ [8; 2; 0; 1]%float ["*"; "/"; "+"] 1 0%float);
      vm_compute; (reflexivity || lia).
Defined.

(** * Facts about the state machine *)

(** ** The history *)

Section History.

Lemma push_history_length h e :
  length h <= 10 -> length (push_history h e) <= 10.
Proof.
  intros Hle. unfold push_history.
  destruct (10 <? length (h ++ [e])) eqn:Hlt.
  - apply Nat.ltb_lt in Hlt. rewrite length_app in *. simpl in *.
    destruct h; simpl in *; [lia|]. rewrite length_app. simpl. lia.
  - by apply Nat.ltb_ge in Hlt.
Qed.

Lemma push_history_keep_last h e :
  length h <= 10 -> push_history h e = keep_last 10 (h ++ [e]).
Proof.
  intros Hle. unfold push_history, keep_last. rewrite length_app. simpl.
  destruct (10 <? length h + 1) eqn:Hlt.
  - apply Nat.ltb_lt in Hlt. replace (length h + 1 - 10) with 1 by lia.
    by destruct h.
  - apply Nat.ltb_ge in Hlt. by replace (length h + 1 - 10) with 0 by lia.
Qed.

Lemma keep_last_app {A} (l k : list A) n :
  keep_last n (keep_last n l ++ k) = keep_last n (l ++ k).
Proof.
  unfold keep_last. rewrite !length_app, length_drop.
  destruct (decide (length l <= n)) as [Hle|Hgt].
  - replace (length l - n) with 0 by lia. simpl.
    by replace (length l - 0 + length k - n) with (length l + length k - n) by lia.
  - replace (length l - (length l - n) + length k - n) with (length k) by lia.
    replace (length l + length k - n) with (length l - n + length k) by lia.
    rewrite <- (drop_drop (l ++ k)). by rewrite (drop_app_le l) by lia.
Qed.

Lemma history_step st a :
  history (step st a) =
    match a with
    | ClearAll => []
    | Calculate =>
        match computed_entry st with
        | Some e => push_history (history st) e
        | None => history st
        end
    | _ => history st
    end.
Proof.
  destruct a; simpl; try done.
  - unfold appendNumber. by repeat case_match.
  - unfold appendOperator. by repeat case_match.
  - unfold backspace. by repeat case_match.
  - unfold calculate, computed_entry.
    destruct (isResultDisplayed st); [done|]. simpl.
    destruct (skipped (submitted st)); [done|].
    by destruct (evaluateExpression (submitted st)).
Qed.

Lemma history_bounded st : reachable st -> length (history st) <= 10.
Proof.
  induction 1 as [|st a _ IH _]; [simpl; lia|].
  rewrite history_step. destruct a; simpl; try done; try lia.
  destruct (computed_entry st); [|done]. by apply push_history_length.
Qed.


Lemma history_run actions : forall st,
  length (history st) <= 10 ->
  Forall (fun a => a <> ClearAll) actions ->
  history (run st actions) = keep_last 10 (history st ++ computed st actions).
Proof.
  induction actions as [|a actions IH]; intros st Hle Hclear.
  - simpl. rewrite app_nil_r. unfold keep_last.
    by replace (length (history st) - 10) with 0 by lia.
  - apply Forall_cons in Hclear as [Ha Hclear].
    change (run st (a :: actions)) with (run (step st a) actions).
    assert (history (step st a)
            = keep_last 10 (history st ++
                match a with Calculate => option_list (computed_entry st) | _ => [] end))
      as Hstep.
    { rewrite history_step.
      assert (history st = keep_last 10 (history st ++ [])) as Hsame.
      { rewrite app_nil_r. unfold keep_last.
        by replace (length (history st) - 10) with 0 by lia. }
      destruct a; try done.
      destruct (computed_entry st) as [e|]; [|done].
      by apply push_history_keep_last. }
    rewrite IH; [|rewrite Hstep; unfold keep_last; rewrite length_drop; lia|done].
    rewrite Hstep. cbn [computed]. by rewrite keep_last_app, <- app_assoc.
Qed.

End History.

(** C6: in every reachable state the history holds at most ten records; over
    any run without [clearAll] it is the last ten of what was there followed
    by the records of the successful computations in order, so that from an
    empty history eleven computations leave the second to the eleventh. *)
Theorem history_bounded_fifo st actions :
  reachable st ->
  Forall (fun a => a <> ClearAll) actions ->
  length (history st) <= 10
  /\ history (run st actions) = keep_last 10 (history st ++ computed st actions)
  /\ (history st = [] -> length (computed st actions) = 11 ->
      history (run st actions) = tail (computed st actions)).
Proof.
  intros Hreach Hclear. pose proof (history_bounded st Hreach) as Hle.
  split; [done|]. split; [by apply history_run|].
  intros Hnil Hlen. rewrite history_run, Hnil by done. simpl.
  unfold keep_last. rewrite Hlen. simpl. by destruct (computed st actions).
Qed.

Lemma history_bounded_fifo_witness :
  length (computed initial eleven_computations) = 11
  /\ history (run initial eleven_computations)
     = [Entry "2" "2"; Entry "3" "3"; Entry "4" "4"; Entry "5" "5";
        Entry "6" "6"; Entry "7" "7"; Entry "8" "8"; Entry "9" "9";
        Entry "10" "10"; Entry "11" "11"].
Proof.
  split; [vm_compute; reflexivity|].
  etrans.
  - apply (history_bounded_fifo initial eleven_computations).
    + apply reachable_initial.
    + repeat constructor; discriminate.
    + reflexivity.
    + vm_compute. reflexivity.
  - vm_compute. reflexivity.
Defined.

(** ** calculate *)

(** C7: when [calculate] reaches the evaluator and the evaluator throws, the
    message becomes the input buffer, the token sequence is emptied, the
    result flag is raised and the history is left as it was. *)
Theorem failure_committed st err :
  isResultDisplayed st = false ->
  skipped (submitted st) = false ->
  evaluateExpression (submitted st) = Throw err ->
  calculate st = State (message err) [] (history st) true.
Proof.
  intros Hflag Hskip Heval. unfold calculate.
  by rewrite Hflag, Hskip, Heval.
Qed.

Lemma failure_committed_witness :
  calculate (State "0" ["5"; "/"] [Entry "1+1" "2"] false)
  = State "Cannot divide by zero" [] [Entry "1+1" "2"] true.
Proof.
  apply (failure_committed (State "0" ["5"; "/"] [Entry "1+1" "2"] false) DivideByZero);
    vm_compute; reflexivity.
Defined.


(** C10: with no result on display, no committed token and an input buffer
    whose number is zero, [calculate] commits nothing: the buffer and the
    history stay, the flag stays down, and the only change is that the
    buffer's text is pushed onto the token sequence. *)
Theorem zero_input_skipped st :
  isResultDisplayed st = false ->
  expression st = [] ->
  PrimFloat.eqb (JS.parseFloat (currentInput st)) 0 = true ->
  calculate st = State (currentInput st) [currentInput st] (history st) false.
Proof.
  intros Hflag Hexpr Hzero. unfold calculate, submitted, skipped.
  rewrite Hflag, Hexpr.
  destruct (JS.truthy (currentInput st)) eqn:Htruthy.
  - simpl. unfold JS.falsy. by rewrite Hzero.
  - unfold JS.truthy in Htruthy. apply negb_false_iff, String.eqb_eq in Htruthy.
    rewrite Htruthy in Hzero. vm_compute in Hzero. discriminate.
Qed.

Lemma zero_input_skipped_witness :
  calculate (State "0" [] [] false) = State "0" ["0"] [] false.
Proof.
  apply (zero_input_skipped (State "0" [] [] false)); vm_compute; reflexivity.
Defined.

(** ** backspace *)

(** C8, as the code has it: with no result on display, an empty input
    buffer and at least two tokens, [backspace] drops the last token and
    moves the one before it into the input buffer. *)
Theorem backspace_reopens st rest n op :
  isResultDisplayed st = false ->
  currentInput st = "" ->
  expression st = rest ++ [n; op] ->
  backspace st = State n rest (history st) false.
Proof.
  intros Hflag Hinput Hexpr. unfold backspace.
  rewrite Hflag, Hinput, Hexpr. cbn [currentInput expression history isResultDisplayed].
  nat_test (0 <? length (rest ++ [n; op])) true.
  replace (rest ++ [n; op]) with ((rest ++ [n]) ++ [op]) by (by rewrite <- app_assoc).
  rewrite !removelast_last, last_snoc. simpl. by rewrite Hflag.
Qed.

Lemma backspace_reopens_witness :
  backspace (State "" ["3"; "+"] [] false) = State "3" [] [] false.
Proof.
  apply (backspace_reopens (State "" ["3"; "+"] [] false) [] "3" "+"); reflexivity.
Defined.

(** C8 as stated fails: with a single token left and an empty input buffer
    (a result, then an operator key) [backspace] removes a number, not an
    operator, and nothing is moved into the input buffer. *)
Lemma backspace_single_token :
  isResultDisplayed (run initial operator_after_result) = false
  /\ currentInput (run initial operator_after_result) = ""
  /\ expression (run initial operator_after_result) = ["7"]
  /\ is_operator "7" = false
  /\ currentInput (backspace (run initial operator_after_result)) = ""
  /\ expression (backspace (run initial operator_after_result)) = [].
Proof. vm_compute. repeat split. Qed.


(** * Texts that are never operator tokens *)

Section NumberText.

Lemma is_operator_long c d s : is_operator (String c (String d s)) = false.
Proof. unfold is_operator. simpl. by repeat case_match. Qed.

Lemma numeral_head_not_operator s :
  numeral_head s = true -> is_operator s = false /\ s <> "".
Proof.
  destruct s as [|c s]; [done|]. simpl. intros Hc. split; [|done].
  destruct s as [|d s]; [|apply is_operator_long].
  destruct c as [[] [] [] [] [] [] [] []]; try discriminate Hc; reflexivity.
Qed.

Lemma numeral_head_app s t :
  numeral_head s = true -> numeral_head (s +:+ t) = true.
Proof. by destruct s. Qed.

Lemma minus_prefix_not_operator s : s <> "" -> is_operator ("-" +:+ s) = false.
Proof. destruct s; [done|]. intros _. apply is_operator_long. Qed.

Lemma string_of_Z_head z : numeral_head (JS.string_of_Z z) = true.
Proof.
  unfold JS.string_of_Z, NilZero.string_of_uint.
  by destruct (N.to_uint (Z.to_N z)).
Qed.

Lemma leading_digits_point digits n t :
  numeral_head digits = true ->
  numeral_head (String.substring 0 n digits +:+ "." +:+ t) = true.
Proof.
  destruct digits as [|c r]; [done|]. intros Hc.
  destruct n; simpl; [done|]. exact Hc.
Qed.

Lemma toString_pos_head a : numeral_head (JS.toString_pos a) = true.
Proof.
  unfold JS.toString_pos.
  destruct (JS.exact_ratio a) as [num den].
  destruct (JS.shortest _ _ _ _ _ _) as [[s n] k].
  pose proof (string_of_Z_head s) as Hs.
  repeat case_match; try done;
    first [ by apply numeral_head_app | by apply leading_digits_point ].
Qed.

Lemma toString_not_operator x : is_operator (JS.toString x) = false.
Proof.
  unfold JS.toString.
  destruct (is_nan x); [done|]. destruct (PrimFloat.eqb x 0); [done|].
  destruct (numeral_head_not_operator _ (toString_pos_head (abs x))) as [Hop Hne].
  destruct (is_infinity (abs x)), (PrimFloat.ltb x 0);
    try done; by apply minus_prefix_not_operator.
Qed.

Lemma toExponential_not_operator x : is_operator (JS.toExponential 4 x) = false.
Proof.
  unfold JS.toExponential.
  destruct (is_nan x); [done|].
  destruct (is_infinity (abs x)); [by destruct (PrimFloat.ltb x 0)|].
  destruct (if PrimFloat.eqb x 0 then _ else _) as [n e].
  set (digits := if (n =? 0)%Z then JS.zeros (4 + 1) else JS.string_of_Z n).
  assert (numeral_head digits = true) as Hd.
  { subst digits. destruct (n =? 0)%Z; [done|apply string_of_Z_head]. }
  set (t := String.substring 1 _ _ +:+ _).
  destruct (numeral_head_not_operator _ (leading_digits_point digits 1 t Hd))
    as [Hop Hne].
  destruct (PrimFloat.ltb x 0); [|done].
  by apply minus_prefix_not_operator.
Qed.

Lemma formatResult_not_operator x : is_operator (formatResult x) = false.
Proof.
  unfold formatResult.
  destruct (_ || _); [apply toExponential_not_operator|apply toString_not_operator].
Qed.

Lemma message_not_operator e : is_operator (message e) = false.
Proof. by destruct e. Qed.

End NumberText.

(** * The alternation of the token sequence *)

Section Alternation.

Lemma operator_led_not_operator s : operator_led s = false -> is_operator s = false.
Proof.
  destruct s as [|c s]; [done|]. destruct s as [|d s]; [|intros; apply is_operator_long].
  simpl. destruct c as [[] [] [] [] [] [] [] []]; try discriminate; reflexivity.
Qed.

Lemma operator_led_app s t :
  operator_led s = false -> operator_led t = false ->
  operator_led (s +:+ t) = false.
Proof. by destruct s. Qed.

Lemma operator_led_drop_last s :
  operator_led s = false -> operator_led (JS.drop_last s) = false.
Proof. destruct s as [|c [|d s]]; done. Qed.

Lemma pairs_tokens_snoc pairs n o :
  pairs_tokens (pairs ++ [(n, o)]) = pairs_tokens pairs ++ [n; o].
Proof. unfold pairs_tokens. rewrite flat_map_app. simpl. done. Qed.

Lemma adjacent_operators_pairs pairs : forall x,
  Forall (fun p => operator_led p.1 = false) pairs ->
  adjacent_operators (x :: pairs_tokens pairs) = false
  /\ adjacent_operators (pairs_tokens pairs) = false.
Proof.
  induction pairs as [|[n o] pairs IH]; intros x Hall; [done|].
  apply Forall_cons in Hall as [Hn Hall]. simpl in Hn.
  apply operator_led_not_operator in Hn.
  destruct (IH o Hall) as [Ho _].
  change (pairs_tokens ((n, o) :: pairs)) with (n :: o :: pairs_tokens pairs).
  cbn [adjacent_operators]. cbn [adjacent_operators] in Ho.
  rewrite Hn, andb_false_r. simpl. done.
Qed.

Lemma paired_well_alternated tokens : paired tokens -> well_alternated tokens.
Proof.
  intros (lead & pairs & -> & Hlen & Hlead & Hpairs).
  destruct lead as [|x lead]; [|destruct lead; [|simpl in Hlen; lia]]; simpl.
  - split; [|by apply (adjacent_operators_pairs pairs "")].
    destruct pairs as [|[n o] pairs]; [done|]. simpl.
    apply Forall_cons in Hpairs as [Hn _]. by apply operator_led_not_operator.
  - apply Forall_cons in Hlead as [Hx _].
    split; [done|by apply adjacent_operators_pairs].
Qed.

Lemma paired_nil : paired [].
Proof. exists [], []. repeat split; simpl; (lia || constructor). Qed.

Lemma paired_singleton t : is_operator t = false -> paired [t].
Proof.
  intros Ht. exists [t], []. repeat split; simpl; [lia|by constructor|constructor].
Qed.

Lemma paired_push tokens n o :
  paired tokens -> operator_led n = false -> paired (tokens ++ [n; o]).
Proof.
  intros (lead & pairs & -> & Hlen & Hlead & Hpairs) Hn.
  exists lead, (pairs ++ [(n, o)]).
  rewrite pairs_tokens_snoc, app_assoc. repeat split; try done.
  apply Forall_app. split; [done|]. by constructor.
Qed.

Lemma skipped_short expr : skipped expr = true -> length expr <= 1.
Proof.
  unfold skipped. intros [Hlt|[Heq _]%andb_prop]%orb_prop.
  - apply Nat.ltb_lt in Hlt. lia.
  - apply Nat.eqb_eq in Heq. lia.
Qed.

Lemma paired_pair n o : operator_led n = false -> paired [n; o].
Proof. intros Hn. by apply (paired_push [] n o paired_nil). Qed.

Lemma invariant_appendNumber digit st :
  operator_led digit = false ->
  builder_invariant st -> builder_invariant (appendNumber digit st).
Proof.
  intros Hd [Hexpr Hinput]. destruct st as [input expr h []];
    unfold appendNumber; simpl in *.
  - rewrite andb_false_r. split; [apply paired_nil|done].
  - destruct (_ && _); [done|].
    split; [done|]. cbn [currentInput isResultDisplayed].
    by apply operator_led_app.
Qed.

Lemma invariant_appendOperator op st :
  alternation_keys st (AppendOperator op) ->
  builder_invariant st -> builder_invariant (appendOperator op st).
Proof.
  intros Hminus [Hexpr Hinput]. destruct st as [input expr h []];
    unfold appendOperator; simpl in *.
  - destruct (String.eqb_spec op " - ") as [Hop|Hop]; simpl.
    + split; [|done]. by apply paired_pair, Hminus.
    + split; [by apply paired_singleton|done].
  - destruct (String.eqb_spec input "") as [->|Hne]; simpl.
    + destruct (String.eqb_spec op " - ") as [Hop|Hop]; simpl; [|done].
      destruct (Hminus Hop) as [|(x & -> & Hx)]; [done|].
      split; [|done]. by apply paired_pair.
    + unfold JS.truthy. simpl.
      replace (String.eqb input "") with false
        by (symmetry; by apply String.eqb_neq).
      simpl. split; [|done]. rewrite <- app_assoc. by apply paired_push.
Qed.

Lemma invariant_backspace st :
  builder_invariant st -> builder_invariant (backspace st).
Proof.
  intros [Hexpr Hinput]. destruct st as [input expr h []];
    unfold backspace; simpl in *.
  - split; [apply paired_nil|done].
  - destruct (JS.truthy input); simpl.
    { split; [done|by apply operator_led_drop_last]. }
    destruct (0 <? length expr) eqn:Hlen; simpl; [|done].
    apply Nat.ltb_lt in Hlen.
    destruct Hexpr as (lead & pairs & -> & Hle & Hlead & Hpairs).
    destruct pairs as [|[n o] pairs _] using rev_ind.
    + destruct lead as [|x [|y lead]]; simpl in *; try lia.
      split; [apply paired_nil|done].
    + apply Forall_app in Hpairs as [Hpairs [Hn _]%Forall_cons].
      rewrite pairs_tokens_snoc, app_assoc.
      replace ((lead ++ pairs_tokens pairs) ++ [n; o])
        with (((lead ++ pairs_tokens pairs) ++ [n]) ++ [o])
        by (by rewrite <- (app_assoc _ [n] [o])).
      rewrite !removelast_last, last_snoc. simpl.
      split; [|done]. by exists lead, pairs.
Qed.

Lemma invariant_calculate st :
  builder_invariant st -> builder_invariant (calculate st).
Proof.
  intros [Hexpr Hinput]. unfold calculate.
  destruct (isResultDisplayed st) eqn:Hflag.
  { split; [done|by rewrite Hflag]. }
  destruct (skipped (submitted st)) eqn:Hskip.
  - split; simpl; [|done].
    apply skipped_short in Hskip. unfold submitted in *.
    destruct (JS.truthy (currentInput st)); [|done].
    rewrite length_app in Hskip. simpl in Hskip.
    destruct (expression st); [|simpl in Hskip; lia].
    by apply paired_singleton, operator_led_not_operator.
  - destruct (evaluateExpression (submitted st)); simpl.
    + split; [apply paired_nil|apply formatResult_not_operator].
    + split; [apply paired_nil|apply message_not_operator].
Qed.

Lemma invariant_step st a :
  alternation_keys st a ->
  builder_invariant st -> builder_invariant (step st a).
Proof.
  destruct a; simpl; intros Hallowed Hinv.
  - by apply invariant_appendNumber.
  - by apply invariant_appendOperator.
  - by apply invariant_backspace.
  - split; [apply paired_nil|done].
  - split; [apply paired_nil|done].
  - by apply invariant_calculate.
Qed.

Lemma invariant_reachable st :
  reachable_via alternation_keys st -> builder_invariant st.
Proof.
  induction 1 as [|st a _ IH Hallowed].
  - split; [apply paired_nil|done].
  - by apply invariant_step.
Qed.

End Alternation.

(** C2, as the code has it: in every state reached by number keys that do
    not begin with an operator character, with the padded minus pressed only
    on a displayed result that does not begin with an operator character,
    or while a number is being typed, or on an empty input over a single
    token that does not begin with one, every builder operation allowed in
    the same way leaves a token sequence that does not start with an
    operator and holds no two adjacent operators. *)
Theorem alternation_kept st a :
  reachable_via alternation_keys st ->
  alternation_keys st a ->
  builder a ->
  well_alternated (expression (step st a)).
Proof.
  intros Hreach Hallowed _.
  apply paired_well_alternated.
  by apply (invariant_step st a Hallowed), invariant_reachable.
Qed.

Lemma alternation_kept_witness :
  well_alternated
    (expression (step (run initial minus_on_result) (AppendOperator " - "))).
Proof.
  apply (alternation_kept (run initial minus_on_result) (AppendOperator " - ")).
  - apply (reachable_step _ _ Calculate); [|exact I].
    apply (reachable_step _ _ (AppendNumber "4")); [|reflexivity].
    apply (reachable_step _ _ (AppendOperator " + ")); [|discriminate].
    apply (reachable_step _ initial (AppendNumber "3")); [|reflexivity].
    apply reachable_initial.
  - intros _. vm_compute. reflexivity.
  - exact I.
Defined.

(** C2 as stated fails: on the initial state the padded minus passes the
    guard of [appendOperator], so the token sequence starts with an operator;
    pressed again it puts two operators side by side. *)
Lemma leading_minus_accepted :
  builder (AppendOperator " - ")
  /\ expression (step initial (AppendOperator " - ")) = ["-"]
  /\ starts_with_operator (expression (step initial (AppendOperator " - "))) = true
  /\ adjacent_operators
       (expression (run initial [AppendOperator " - "; AppendOperator " - "])) = true.
Proof. vm_compute. repeat split. Qed.

(** Why a minus on a result that begins with an operator character is left
    out: [backspace] re-opens the result and cuts it down to its sign, which
    the next operator key commits as a token. *)
Lemma minus_on_negative_result_breaks :
  currentInput (run initial (take 4 minus_on_negative_result)) = "-5"
  /\ expression (run initial minus_on_negative_result) = ["-"; "+"]
  /\ starts_with_operator (expression (run initial minus_on_negative_result)) = true
  /\ adjacent_operators (expression (run initial minus_on_negative_result)) = true.
Proof. vm_compute. repeat split. Qed.

(** ** The restriction on the minus is needed *)

Section MinusRestriction.

Lemma run_app st a b : run st (a ++ b) = run (run st a) b.
Proof. apply fold_left_app. Qed.

Lemma length_drop_last r : forall d,
  String.length (JS.drop_last (String d r)) = String.length r.
Proof.
  induction r as [|e r IH]; intros d; [done|].
  change (JS.drop_last (String d (String e r)))
    with (String d (JS.drop_last (String e r))).
  cbn [String.length]. by rewrite IH.
Qed.

Lemma backspaces_cut c h : forall r,
  run (State (String c r) [] h false) (repeat Backspace (String.length r))
  = State (String c "") [] h false.
Proof.
  intros r. remember (String.length r) as n eqn:Hn. revert r Hn.
  induction n as [|n IH]; intros r Hn.
  - by destruct r.
  - destruct r as [|d r]; [done|]. injection Hn as Hn.
    cbn [repeat run fold_left step].
    replace (backspace (State (String c (String d r)) [] h false))
      with (State (String c (JS.drop_last (String d r))) [] h false) by done.
    apply IH. by rewrite length_drop_last.
Qed.

Lemma operator_char_token c : operator_char c = true -> is_operator (String c "") = true.
Proof. destruct c as [[] [] [] [] [] [] [] []]; try discriminate; reflexivity. Qed.

(** A token that begins with an operator character, an operator after it:
    [backspace] re-opens the token, cuts it down to the character, and the
    next operator key commits it. *)
Lemma cut_to_operator x h :
  operator_led x = true ->
  exists keys,
    Forall (fun a => a = Backspace \/ a = AppendOperator " + ") keys
    /\ starts_with_operator
         (expression (run (State "" [x; "-"] h false) keys)) = true.
Proof.
  destruct x as [|c r]; [done|]. simpl. intros Hc.
  exists (Backspace :: repeat Backspace (String.length r) ++ [AppendOperator " + "]).
  split.
  - apply Forall_cons; split; [by left|]. apply Forall_app; split.
    + induction (String.length r) as [|n IH]; [done|].
      apply Forall_cons. split; [by left|done].
    + apply Forall_singleton. by right.
  - cbn [run fold_left step]. 
    change (backspace (State "" [String c r; "-"] h false))
      with (State (String c r) [] h false).
    fold (run (State (String c r) [] h false)
            (repeat Backspace (String.length r) ++ [AppendOperator " + "])).
    rewrite run_app, backspaces_cut. simpl. by apply operator_char_token.
Qed.

Lemma adjacent_operators_end o : forall tokens,
  is_operator o = true -> adjacent_operators (tokens ++ [o; "-"]) = true.
Proof.
  intros tokens Ho. induction tokens as [|a tokens IH]; simpl.
  - by rewrite Ho.
  - rewrite IH. destruct (tokens ++ [o; "-"]) eqn:E; [by destruct tokens|].
    apply orb_true_r.
Qed.

Lemma closed_nil : closed_by_operator [].
Proof. exists [], []. repeat split; simpl; (lia || constructor). Qed.

Lemma closed_singleton t : closed_by_operator [t].
Proof. exists [t], []. repeat split; simpl; (lia || constructor). Qed.

Lemma closed_push tokens n o :
  closed_by_operator tokens -> is_operator o = true ->
  closed_by_operator (tokens ++ [n; o]).
Proof.
  intros (lead & pairs & -> & Hlen & Hpairs) Ho.
  exists lead, (pairs ++ [(n, o)]).
  rewrite pairs_tokens_snoc, app_assoc. repeat split; try done.
  apply Forall_app. split; [done|]. by constructor.
Qed.

Lemma closed_pair n o : is_operator o = true -> closed_by_operator [n; o].
Proof. intros Ho. by apply (closed_push [] n o closed_nil). Qed.

Lemma closed_appendOperator op st :
  calculator_keys st (AppendOperator op) ->
  closed_by_operator (expression st) ->
  closed_by_operator (expression (appendOperator op st)).
Proof.
  intros [Hminus Hop] Hexpr. destruct st as [input expr h []];
    unfold appendOperator; simpl in *.
  - destruct (String.eqb_spec op " - ") as [->|Hne]; simpl.
    + by apply closed_pair.
    + apply closed_singleton.
  - destruct (String.eqb_spec input "") as [->|Hne]; simpl.
    + destruct (String.eqb_spec op " - ") as [Hminus'|Hne]; simpl; [|done].
      destruct (Hminus Hminus') as [|(x & -> & Hx)]; [done|].
      by apply closed_pair.
    + unfold JS.truthy. simpl.
      replace (String.eqb input "") with false
        by (symmetry; by apply String.eqb_neq).
      simpl. rewrite <- app_assoc. by apply closed_push.
Qed.

Lemma closed_backspace st :
  closed_by_operator (expression st) ->
  closed_by_operator (expression (backspace st)).
Proof.
  intros Hexpr. destruct st as [input expr h []];
    unfold backspace; simpl in *; [apply closed_nil|].
  destruct (JS.truthy input); simpl; [done|].
  destruct (0 <? length expr) eqn:Hlen; simpl; [|done].
  apply Nat.ltb_lt in Hlen.
  destruct Hexpr as (lead & pairs & -> & Hle & Hpairs).
  destruct pairs as [|[n o] pairs _] using rev_ind.
  - destruct lead as [|x [|y lead]]; simpl in *; try lia. apply closed_nil.
  - apply Forall_app in Hpairs as [Hpairs _].
    rewrite pairs_tokens_snoc, app_assoc.
    replace ((lead ++ pairs_tokens pairs) ++ [n; o])
      with (((lead ++ pairs_tokens pairs) ++ [n]) ++ [o])
      by (by rewrite <- (app_assoc _ [n] [o])).
    rewrite !removelast_last. by exists lead, pairs.
Qed.

Lemma closed_calculate st :
  closed_by_operator (expression st) ->
  closed_by_operator (expression (calculate st)).
Proof.
  intros Hexpr. unfold calculate.
  destruct (isResultDisplayed st); [done|].
  destruct (skipped (submitted st)) eqn:Hskip.
  - simpl. apply skipped_short in Hskip. unfold submitted in *.
    destruct (JS.truthy (currentInput st)); [|done].
    rewrite length_app in Hskip. simpl in Hskip.
    destruct (expression st); [|simpl in Hskip; lia].
    apply closed_singleton.
  - destruct (evaluateExpression (submitted st)); apply closed_nil.
Qed.

Lemma closed_reachable st :
  reachable_via calculator_keys st -> closed_by_operator (expression st).
Proof.
  induction 1 as [|st a _ IH Hallowed]; [apply closed_nil|].
  destruct a; simpl.
  - unfold appendNumber. destruct (isResultDisplayed st); simpl.
    + rewrite andb_false_r. apply closed_nil.
    + by destruct (_ && _).
  - by apply closed_appendOperator.
  - by apply closed_backspace.
  - apply closed_nil.
  - apply closed_nil.
  - by apply closed_calculate.
Qed.

Lemma closed_last tokens rest x :
  closed_by_operator tokens -> tokens = rest ++ [x] -> rest <> [] ->
  is_operator x = true.
Proof.
  intros (lead & pairs & -> & Hle & Hpairs) Heq Hrest.
  destruct pairs as [|[n o] pairs _] using rev_ind.
  - simpl in Heq. rewrite app_nil_r in Heq. subst lead.
    rewrite length_app in Hle. simpl in Hle. destruct rest; [done|simpl in Hle; lia].
  - apply Forall_app in Hpairs as [_ [Ho _]%Forall_cons].
    rewrite pairs_tokens_snoc, app_assoc in Heq.
    replace ((lead ++ pairs_tokens pairs) ++ [n; o])
      with (((lead ++ pairs_tokens pairs) ++ [n]) ++ [o]) in Heq
      by (by rewrite <- (app_assoc _ [n] [o])).
    by apply app_inj_tail in Heq as [_ <-].
Qed.

End MinusRestriction.

(** X15: the restriction on the minus leaves out no more than it has to.  In
    every state reached under it with the four operator keys, a padded minus
    that it leaves out can be followed by Backspace keys and a plus key so
    that the token sequence starts with an operator or holds two adjacent
    operators. *)
Theorem minus_restriction_needed st :
  reachable_via calculator_keys st ->
  ~ alternation_keys st (AppendOperator " - ") ->
  exists keys,
    Forall (fun a => a = Backspace \/ a = AppendOperator " + ") keys
    /\ ~ well_alternated
          (expression (run (step st (AppendOperator " - ")) keys)).
Proof.
  intros Hclosed%closed_reachable Hnot. destruct st as [input expr h flag].
  unfold alternation_keys in Hnot.
  cbn [isResultDisplayed currentInput expression] in *.
  destruct flag.
  - destruct (operator_led input) eqn:Hled; [|by destruct Hnot].
    destruct (cut_to_operator input h Hled) as (keys & Hkeys & Hstart).
    exists keys. split; [done|]. intros [Hwell _].
    assert (step (State input expr h true) (AppendOperator " - ")
            = State "" [input; "-"] h false) as Hstep.
    { reflexivity. }
    rewrite Hstep in Hwell. congruence.
  - destruct (String.eqb_spec input "") as [->|Hne];
      [|by destruct Hnot; intros; left].
    assert (step (State "" expr h false) (AppendOperator " - ")
            = State "" (expr ++ ["-"]) h false) as Hstep by reflexivity.
    rewrite Hstep.
    destruct expr as [|x rest _] using rev_ind.
    + exists []. split; [done|]. by intros [Hwell _].
    + destruct rest as [|y rest].
      * destruct (operator_led x) eqn:Hled.
        -- destruct (cut_to_operator x h Hled) as (keys & Hkeys & Hstart).
           exists keys. split; [done|]. intros [Hwell _].
           simpl in Hwell. congruence.
        -- destruct Hnot. intros _. right. by exists x.
      * exists []. split; [done|]. intros [_ Hadj].
        cbn [run fold_left expression] in Hadj.
        replace (((y :: rest) ++ [x]) ++ ["-"])
          with ((y :: rest) ++ [x; "-"]) in Hadj by (by rewrite <- app_assoc).
        rewrite adjacent_operators_end in Hadj; [done|].
        by apply (closed_last _ (y :: rest) x Hclosed).
Qed.

Lemma minus_restriction_needed_witness :
  exists keys,
    Forall (fun a => a = Backspace \/ a = AppendOperator " + ") keys
    /\ ~ well_alternated
          (expression
             (run (step (run initial (take 4 minus_on_negative_result))
                        (AppendOperator " - ")) keys)).
Proof.
  apply (minus_restriction_needed (run initial (take 4 minus_on_negative_result))).
  - apply (reachable_step _ _ Calculate); [|by split].
    apply (reachable_step _ _ (AppendNumber "5")); [|by split].
    apply (reachable_step _ _ (AppendOperator " - ")); [|split; [by left|done]].
    apply (reachable_step _ initial (AppendNumber "0")); [|by split].
    apply reachable_initial.
  - intros Hallowed. specialize (Hallowed eq_refl). vm_compute in Hallowed.
    discriminate.
Defined.

(** ** formatResult *)

(** C5 fails on the code: [-1234567.125], the result of [0 - 1234567.125],
    has ten decimal digits and a magnitude between 1e-7 and 1e7, yet
    [formatResult] answers in scientific notation, because the length it
    compares with ten counts the minus sign. *)
Theorem formatResult_counts_sign :
  JS.toString (-1234567.125) = "-1234567.125"
  /\ count_digits (JS.toString (-1234567.125)) = 10
  /\ String.length (JS.remove_first "." (JS.toString (-1234567.125))) = 11
  /\ PrimFloat.ltb 10000000 (PrimFloat.abs (-1234567.125)) = false
  /\ PrimFloat.ltb (PrimFloat.abs (-1234567.125)) 0x1.ad7f29abcaf48p-24 = false
  /\ formatResult (-1234567.125) = "-1.2346e+6"
  /\ currentInput (run initial negative_ten_digits) = "-1.2346e+6".
Proof. vm_compute. repeat split. Qed.

(** * More about the evaluator *)

Section Errors.

Lemma classified_or_unreadable tokens :
  all_classified tokens \/ Exists unreadable tokens.
Proof.
  induction tokens as [|t tokens [IH|IH]].
  - left. constructor.
  - unfold all_classified, is_number_token, unreadable in *.
    destruct (is_operator t) eqn:Hop; [left; constructor; by rewrite ?Hop|].
    destruct (JS.isNaN (JS.parseFloat t)) eqn:Hnan.
    + right. by constructor.
    + left. constructor; [by rewrite Hop, Hnan|done].
  - right. by apply Exists_cons_tl.
Qed.

Lemma classified_not_unreadable tokens :
  all_classified tokens -> ~ Exists unreadable tokens.
Proof.
  intros Hall Hex. apply Exists_exists in Hex as (t & Hin & Hop & Hnan).
  unfold all_classified in Hall. rewrite Forall_forall in Hall.
  specialize (Hall t Hin). unfold is_number_token in Hall.
  by rewrite Hop, Hnan in Hall.
Qed.

Lemma parse_tokens_unreadable tokens : forall numbers operators,
  Exists unreadable tokens ->
  parse_tokens tokens numbers operators = Throw InvalidNumber.
Proof.
  induction tokens as [|t tokens IH]; intros numbers operators Hex;
    [by apply Exists_nil in Hex|]. simpl.
  destruct (is_operator t) eqn:Hop.
  - apply Exists_cons in Hex as [[Hop' _]|Hex]; [congruence|by apply IH].
  - destruct (JS.isNaN (JS.parseFloat t)) eqn:Hnan; [done|].
    apply Exists_cons in Hex as [[_ Hnan']|Hex]; [congruence|by apply IH].
Qed.

Lemma filter_is_operator tokens :
  Forall (fun t => is_operator t = true) (List.filter is_operator tokens).
Proof.
  apply Forall_forall. intros t Hin. apply list_elem_of_In in Hin.
  by apply filter_In in Hin as [_ Hop].
Qed.

Lemma applyOperator_throws op a b e :
  is_operator op = true ->
  applyOperator op a b = Throw e ->
  e = DivideByZero /\ op = "/" /\ PrimFloat.eqb b 0 = true.
Proof.
  unfold is_operator, applyOperator.
  destruct (String.eqb op "+"); [done|].
  destruct (String.eqb op "-"); [done|].
  destruct (String.eqb op "*"); [done|].
  destruct (String.eqb_spec op "/") as [->|]; [|done].
  destruct (PrimFloat.eqb b 0); [|done]. by intros _ [= <-].
Qed.

Lemma applyOperator_additive op a b :
  is_operator op = true -> precedence op <> Some 2 ->
  exists v, applyOperator op a b = Normal v.
Proof.
  unfold is_operator, precedence, applyOperator.
  destruct (String.eqb op "+"); [by eexists|].
  destruct (String.eqb op "-"); [by eexists|].
  destruct (String.eqb op "*"); [done|].
  destruct (String.eqb op "/"); done.
Qed.

Lemma take_delete_same {A} (l : list A) j :
  j < length l -> take j (delete j l) = take j l.
Proof.
  intros Hj. rewrite delete_take_drop. apply take_app_length'.
  rewrite length_take. lia.
Qed.

(** What the first loop throws, and what it leaves on success: only [+]
    and [-]. *)
Lemma high_pass_outcome m : forall j numbers operators,
  2 * length operators - j <= m ->
  Forall (fun t => is_operator t = true) operators ->
  Forall (fun t => precedence t <> Some 2) (take j operators) ->
  match high_pass j numbers operators with
  | Throw e => e = DivideByZero
  | Normal (_, operators') =>
      Forall (fun t => is_operator t = true /\ precedence t <> Some 2) operators'
  end.
Proof.
  induction m as [|m IH]; intros j numbers operators Hm Hops Hlow;
    rewrite high_pass_step; destruct (decide (j < length operators)) as [Hj|Hj];
    try lia.
  1,3: rewrite take_ge in Hlow by lia; apply Forall_forall; intros t Hin;
       rewrite Forall_forall in Hops, Hlow; by split; [apply Hops|apply Hlow].
  destruct (lookup_lt_is_Some_2 operators j Hj) as [op Hop]. rewrite Hop.
  destruct (decide (precedence op = Some 2)) as [Hhigh|Hnot].
  - destruct (applyOperator op _ _) as [v|e] eqn:Happ; simpl.
    + apply IH.
      * rewrite length_delete by (by eexists). lia.
      * by apply Forall_delete.
      * by rewrite take_delete_same.
    + by eapply applyOperator_high_throws.
  - apply IH; [lia|done|].
    replace (j + 1) with (S j) by lia. rewrite (take_S_r _ _ op) by done.
    apply Forall_app. split; [done|by constructor].
Qed.

Lemma low_pass_additive operators : forall i numbers acc,
  Forall (fun t => is_operator t = true /\ precedence t <> Some 2) operators ->
  exists v, low_pass i operators numbers acc = Normal v.
Proof.
  induction operators as [|op operators IH]; intros i numbers acc Hall; simpl;
    [by eexists|].
  apply Forall_cons in Hall as [[Hop Hlow] Hall].
  destruct (applyOperator_additive op acc (operand numbers (i + 1)) Hop Hlow)
    as [v ->]. simpl. by apply IH.
Qed.

Lemma parse_tokens_classified_shape tokens :
  all_classified tokens ->
  exists numbers operators,
    parse_tokens tokens [] [] = Normal (numbers, operators)
    /\ length numbers = count_numbers tokens
    /\ length operators = count_operators tokens
    /\ Forall (fun t => is_operator t = true) operators.
Proof.
  intros Hall. eexists _, _. split; [by apply parse_tokens_classified|].
  simpl. rewrite length_map. repeat split. apply filter_is_operator.
Qed.

End Errors.

(** X1: the evaluator throws nothing but 'Invalid number', 'Invalid
    expression' and 'Cannot divide by zero', each only in its own case: a
    token that is neither operator nor number; every token readable but no
    more numbers than operators; every token readable, more numbers than
    operators.  'Invalid operation' is never thrown. *)
Theorem evaluate_error_cases tokens e :
  evaluateExpression tokens = Throw e ->
  (e = InvalidNumber /\ Exists unreadable tokens)
  \/ (e = InvalidExpression /\ all_classified tokens
      /\ count_numbers tokens <= count_operators tokens)
  \/ (e = DivideByZero /\ all_classified tokens
      /\ count_operators tokens < count_numbers tokens).
Proof.
  destruct (classified_or_unreadable tokens) as [Hall|Hbad].
  2:{ unfold evaluateExpression. rewrite parse_tokens_unreadable by done.
      intros [= <-]. by left. }
  destruct (parse_tokens_classified_shape tokens Hall)
    as (numbers & operators & Hparse & Hn & Ho & Hops).
  unfold evaluateExpression. rewrite Hparse. cbn [mbind completion_bind].
  rewrite Hn, Ho.
  destruct (_ && _); [done|].
  destruct (count_numbers tokens <=? count_operators tokens) eqn:Hle.
  { apply Nat.leb_le in Hle. intros [= <-]. right. by left. }
  apply Nat.leb_gt in Hle. intros Hthrow. right. right.
  split; [|done].
  pose proof (high_pass_outcome _ 0 numbers operators (Nat.le_refl _) Hops
                (Forall_nil_2 _)) as Hhigh.
  destruct (high_pass 0 numbers operators) as [[numbers' operators']|e'];
    simpl in Hthrow; [|congruence].
  destruct (low_pass_additive operators' 0 numbers' (operand numbers' 0) Hhigh)
    as [v Hv]. congruence.
Qed.

Lemma evaluate_error_cases_witness :
  all_classified ["5"; "/"; "0"]
  /\ count_operators ["5"; "/"; "0"] < count_numbers ["5"; "/"; "0"].
Proof.
  destruct (evaluate_error_cases ["5"; "/"; "0"] DivideByZero)
    as [[Hno _]|[[Hno _]|[_ Hyes]]];
    [vm_compute; reflexivity|discriminate Hno|discriminate Hno|exact Hyes].
Defined.

(** X2: 'Invalid number' is thrown exactly when some token is neither an
    operator nor a number, whatever else is wrong with the sequence. *)
Theorem unreadable_token_first tokens :
  Exists unreadable tokens <-> evaluateExpression tokens = Throw InvalidNumber.
Proof.
  split.
  - intros Hbad. unfold evaluateExpression. by rewrite parse_tokens_unreadable.
  - intros Hthrow. destruct (classified_or_unreadable tokens) as [Hall|]; [|done].
    exfalso. revert Hthrow. unfold evaluateExpression.
    destruct (parse_tokens_classified_shape tokens Hall)
      as (numbers & operators & Hparse & Hn & Ho & Hops).
    rewrite Hparse. cbn [mbind completion_bind].
    destruct (_ && _); [done|]. destruct (_ <=? _); [done|].
    pose proof (high_pass_outcome _ 0 numbers operators (Nat.le_refl _) Hops
                  (Forall_nil_2 _)) as Hhigh.
    destruct (high_pass 0 numbers operators) as [[numbers' operators']|e'];
      simpl; [|congruence].
    destruct (low_pass_additive operators' 0 numbers' (operand numbers' 0) Hhigh)
      as [v ->]. done.
Qed.

Section ZeroDivisor.

Lemma parse_tokens_operators tokens numbers operators :
  parse_tokens tokens [] [] = Normal (numbers, operators) ->
  Forall (fun t => is_operator t = true) operators.
Proof.
  intros Hparse. destruct (classified_or_unreadable tokens) as [Hall|Hbad].
  - rewrite parse_tokens_classified in Hparse by done.
    injection Hparse as _ <-. apply filter_is_operator.
  - by rewrite parse_tokens_unreadable in Hparse.
Qed.


Lemma high_pass_throws_zero_divisor m : forall j numbers operators e,
  2 * length operators - j <= m ->
  length operators < length numbers ->
  Forall (fun t => is_operator t = true) operators ->
  high_pass j numbers operators = Throw e ->
  exists i z, j <= i /\ operators !! i = Some "/" /\ numbers !! (i + 1) = Some z
              /\ PrimFloat.eqb z 0 = true.
Proof.
  induction m as [|m IH]; intros j numbers operators e Hm Hlen Hops;
    rewrite high_pass_step; destruct (decide (j < length operators)) as [Hj|Hj];
    try lia; try done.
  destruct (lookup_lt_is_Some_2 operators j Hj) as [op Hop]. rewrite Hop.
  destruct (decide (precedence op = Some 2)) as [Hhigh|Hnot].
  2:{ intros Hthrow. apply IH in Hthrow as (i & z & Hji & Hrest); [|lia|done|done].
      exists i, z. split; [lia|done]. }
  destruct (applyOperator op _ _) as [v|e'] eqn:Happ; simpl.
  - intros Hthrow. apply IH in Hthrow as (i & z & Hji & Hi & Hz & Hzero).
    + exists (S i), z. rewrite list_lookup_delete_ge in Hi by lia.
      rewrite list_lookup_delete_ge, array_set_lookup_ne in Hz by lia.
      split; [lia|done].
    + rewrite length_delete by (by eexists). lia.
    + unfold array_set. nat_test (j <? length numbers) true.
      rewrite !length_delete, length_insert
        by (apply lookup_lt_is_Some; rewrite ?length_insert; lia).
      lia.
    + by apply Forall_delete.
  - intros _. rewrite Forall_forall in Hops.
    assert (is_operator op = true) as Hisop
      by (apply Hops; by eapply list_elem_of_lookup_2).
    destruct (applyOperator_throws _ _ _ _ Hisop Happ) as (_ & -> & Hzero).
    destruct (lookup_lt_is_Some_2 numbers (j + 1)) as [z Hz]; [lia|].
    exists j, z. unfold operand in Hzero. rewrite Hz in Hzero. done.
Qed.

End ZeroDivisor.

(** X3: once the tokens are parsed and validated, 'Cannot divide by zero' is
    thrown exactly when some [/] has a zero one place after it in the number
    array. *)
Theorem divide_by_zero_iff tokens numbers operators :
  parse_tokens tokens [] [] = Normal (numbers, operators) ->
  length operators < length numbers ->
  evaluateExpression tokens = Throw DivideByZero
  <-> exists i z, operators !! i = Some "/" /\ numbers !! (i + 1) = Some z
                  /\ PrimFloat.eqb z 0 = true.
Proof.
  intros Hparse Hlen. split.
  - intros Hthrow.
    pose proof (parse_tokens_operators _ _ _ Hparse) as Hops.
    destruct operators as [|op operators].
    { exfalso. revert Hthrow. unfold evaluateExpression. rewrite Hparse.
      cbn [mbind completion_bind]. destruct (_ && _); [done|].
      nat_test (length numbers <=? length (@nil string)) false.
      rewrite high_pass_step. simpl. done. }
    rewrite (evaluate_parsed _ _ _ Hparse) in Hthrow by (simpl in *; lia).
    destruct (high_pass 0 numbers (op :: operators))
      as [[numbers' operators']|e] eqn:Hhigh.
    + exfalso.
      pose proof (high_pass_outcome _ 0 numbers (op :: operators) (Nat.le_refl _)
                    Hops (Forall_nil_2 _)) as Hlow.
      rewrite Hhigh in Hlow.
      destruct (low_pass_additive operators' 0 numbers' (operand numbers' 0) Hlow)
        as [v Hv]. simpl in Hthrow. congruence.
    + simpl in Hthrow.
      apply (high_pass_throws_zero_divisor _ _ _ _ _ (Nat.le_refl _)) in Hhigh
        as (i & z & _ & Hrest); [by exists i, z|lia|done].
  - intros (i & z & Hi & Hz & Hzero).
    pose proof (lookup_lt_Some _ _ _ Hi).
    rewrite (evaluate_parsed _ _ _ Hparse) by lia.
    by rewrite (high_pass_zero_divisor _ 0 numbers operators i z (Nat.le_refl _))
      by (done || lia).
Qed.

Section Surplus.

Lemma parse_tokens_numbers extra : forall numbers operators,
  Forall (fun t => is_number_token t = true) extra ->
  parse_tokens extra numbers operators
  = Normal (numbers ++ map JS.parseFloat extra, operators).
Proof.
  induction extra as [|t extra IH]; intros numbers operators Hall; simpl.
  - by rewrite app_nil_r.
  - apply Forall_cons in Hall as [[Hop Hnan]%andb_prop Hall].
    apply negb_true_iff in Hop, Hnan. rewrite Hop, Hnan, IH by done.
    by rewrite <- app_assoc.
Qed.

Lemma parse_tokens_app front : forall back numbers operators,
  parse_tokens (front ++ back) numbers operators
  = '(numbers', operators') ← parse_tokens front numbers operators;
    parse_tokens back numbers' operators'.
Proof.
  induction front as [|t front IH]; intros back numbers operators; simpl; [done|].
  destruct (is_operator t); [apply IH|].
  destruct (JS.isNaN (JS.parseFloat t)); [done|apply IH].
Qed.

Lemma high_pass_collapse_surplus extra rest : forall lead_n lead_o acc,
  length lead_n = length lead_o ->
  high_pass (length lead_o) (lead_n ++ acc :: operand_values rest ++ extra)
            (lead_o ++ operator_tokens rest)
  = '(t, ts) ← collapse acc rest;
    Normal (lead_n ++ t :: operand_values ts ++ extra,
            lead_o ++ operator_tokens ts).
Proof.
  induction rest as [|[o n] rest IH]; intros lead_n lead_o acc Hlen;
    rewrite high_pass_step; simpl.
  - rewrite app_nil_r. by rewrite decide_False by lia.
  - rewrite decide_True by (rewrite length_app; simpl; lia).
    rewrite list_lookup_middle by done.
    rewrite operand_middle, operand_after_middle by done.
    destruct (multiplicative o) eqn:Hmul.
    + rewrite decide_True by (by apply precedence_binop).
      rewrite applyOperator_binop.
      destruct (apply_binop o acc n) as [v|e]; simpl; [|done].
      rewrite array_set_middle, delete_after_middle, delete_middle by done.
      by apply IH.
    + rewrite decide_False
        by (rewrite precedence_binop; by rewrite Hmul).
      specialize (IH (lead_n ++ [acc]) (lead_o ++ [binop_token o]) n).
      rewrite !length_app, <- !app_assoc in IH. simpl in IH.
      rewrite IH by lia.
      destruct (collapse n rest) as [[t ts]|e]; simpl; [|done].
      by rewrite <- !app_assoc.
Qed.

Lemma low_pass_fold_surplus extra rest : forall lead i acc,
  length lead = i + 1 ->
  low_pass i (operator_tokens rest) (lead ++ operand_values rest ++ extra) acc
  = fold_remaining acc rest.
Proof.
  induction rest as [|[o n] rest IH]; intros lead i acc Hlen; simpl; [done|].
  rewrite applyOperator_binop.
  unfold operand at 1. rewrite list_lookup_middle by done. simpl.
  destruct (apply_binop o acc n) as [v|e]; simpl; [|done].
  specialize (IH (lead ++ [n]) (i + 1) v).
  rewrite <- app_assoc in IH. apply IH.
  rewrite length_app. simpl. lia.
Qed.

End Surplus.

(** X4: number tokens that follow a well-formed sequence are parsed and then
    never read: the result is that of the well-formed part. *)
Theorem surplus_numbers_ignored n0 rest extra :
  is_number_token n0 = true ->
  Forall (fun p => is_number_token p.2 = true) rest ->
  Forall (fun t => is_number_token t = true) extra ->
  evaluateExpression (alternating n0 rest ++ extra)
  = two_tier (JS.parseFloat n0) (parse_operands rest).
Proof.
  intros [Hop Hnan]%andb_prop Hrest Hextra. apply negb_true_iff in Hop, Hnan.
  set (ops := parse_operands rest).
  set (more := map JS.parseFloat extra).
  assert (parse_tokens (alternating n0 rest ++ extra) [] []
          = Normal (JS.parseFloat n0 :: operand_values ops ++ more,
                    operator_tokens ops)) as Hparse.
  { rewrite parse_tokens_app. unfold alternating. cbn [parse_tokens].
    rewrite Hop, Hnan, parse_tokens_pairs by done. simpl.
    by rewrite parse_tokens_numbers. }
  assert (length (operand_values ops) = length (operator_tokens ops)) as Hlen
    by (unfold operand_values, operator_tokens; by rewrite !length_map).
  unfold evaluateExpression. rewrite Hparse. cbn [mbind completion_bind].
  cbn [length]. rewrite length_app, Hlen.
  nat_test (S (length (operator_tokens ops) + length more)
            <=? length (operator_tokens ops)) false.
  pose proof (high_pass_collapse_surplus more ops [] [] (JS.parseFloat n0) eq_refl)
    as Hhigh.
  change (high_pass 0 (JS.parseFloat n0 :: operand_values ops ++ more)
            (operator_tokens ops)
          = '(t, ts) ← collapse (JS.parseFloat n0) ops;
            Normal (t :: operand_values ts ++ more, operator_tokens ts)) in Hhigh.
  rewrite Hhigh. unfold two_tier.
  destruct (_ && _) eqn:Hsingle.
  - apply andb_prop in Hsingle as [_ Hnone%Nat.eqb_eq].
    destruct ops; [done|discriminate].
  - destruct (collapse (JS.parseFloat n0) ops) as [[t ts]|e]; simpl; [|done].
    by apply (low_pass_fold_surplus more ts [t] 0).
Qed.

Lemma divide_by_zero_iff_witness :
  evaluateExpression ["6"; "/"; "3"] = Throw DivideByZero
  <-> exists i z, ["/"] !! i = Some "/" /\ [6; 3]%float !! (i + 1) = Some z
                  /\ PrimFloat.eqb z 0 = true.
Proof.
  apply (divide_by_zero_iff ["6"; "/"; "3"] [6; 3]%float ["/"]).
  - vm_compute. reflexivity.
  - simpl. lia.
Defined.

Lemma surplus_numbers_ignored_witness :
  evaluateExpression ["2"; "+"; "3"; "4"; "5"] = Normal 5%float.
Proof.
  etrans; [apply (surplus_numbers_ignored "2" [(Add, "3")] ["4"; "5"])|].
  - vm_compute. reflexivity.
  - repeat constructor.
  - repeat constructor.
  - vm_compute. reflexivity.
Defined.

(** * Typing an expression *)

Section Typing.

Lemma append_assoc (a b c : string) : (a +:+ b) +:+ c = a +:+ (b +:+ c).
Proof.
  induction a as [|x a IH]; [done|].
  change (String x ((a +:+ b) +:+ c) = String x (a +:+ (b +:+ c))).
  by rewrite IH.
Qed.

Lemma append_nil_r (a : string) : a +:+ "" = a.
Proof.
  induction a as [|x a IH]; [done|].
  change (String x (a +:+ "") = String x a). by rewrite IH.
Qed.

Lemma count_points_app a b :
  count_points (a +:+ b) = count_points a + count_points b.
Proof.
  induction a as [|x a IH]; [done|].
  change (count_points (String x (a +:+ b))
          = count_points (String x a) + count_points b).
  cbn [count_points]. rewrite IH. lia.
Qed.

Lemma includes_point_count s :
  JS.includes "." s = negb (count_points s =? 0).
Proof.
  induction s as [|c s IH]; [done|]. cbn [JS.includes count_points].
  rewrite (Ascii.eqb_sym "." c).
  destruct (Ascii.eqb c "."); [done|exact IH].
Qed.

Lemma join_cons t tokens : JS.join (t :: tokens) = t +:+ JS.join tokens.
Proof. unfold JS.join. destruct tokens; simpl; [by rewrite append_nil_r|done]. Qed.

Lemma join_app front back :
  JS.join (front ++ back) = JS.join front +:+ JS.join back.
Proof.
  induction front as [|t front IH]; [done|].
  rewrite <- app_comm_cons, !join_cons, IH. by rewrite append_assoc.
Qed.

Lemma type_text_cons st c text :
  type_text st (String c text) = type_text (press st (String c "")) text.
Proof. done. Qed.

Lemma type_text_app text : forall st more,
  type_text st (text +:+ more) = type_text (type_text st text) more.
Proof.
  induction text as [|c text IH]; intros st more; [done|].
  change (String c text +:+ more) with (String c (text +:+ more)).
  by rewrite !type_text_cons, IH.
Qed.

Lemma press_number_key c st :
  JS.is_digit c || Ascii.eqb c "." = true ->
  press st (String c "") = appendNumber (String c "") st.
Proof.
  intros Hc. unfold press, keydown. simpl.
  destruct (JS.is_digit c) eqn:Hd; [done|]. simpl in Hc.
  apply Ascii.eqb_eq in Hc as ->. done.
Qed.

Lemma press_operator_key o st :
  press st (binop_token o) = appendOperator (" " +:+ binop_token o +:+ " ") st.
Proof. by destruct o. Qed.

Lemma press_enter st : press st "Enter" = calculate st.
Proof. done. Qed.

(** Digit and point keys extend the input buffer, as long as the point is
    not pressed twice. *)
Lemma type_number_keys text : forall input expr h,
  number_keys text = true ->
  count_points (input +:+ text) <= 1 ->
  type_text (State input expr h false) text = State (input +:+ text) expr h false.
Proof.
  induction text as [|c text IH]; intros input expr h Hkeys Hpoints.
  - by rewrite append_nil_r.
  - simpl in Hkeys. apply andb_prop in Hkeys as [Hc Hkeys].
    rewrite type_text_cons, press_number_key by done.
    replace (input +:+ String c text) with ((input +:+ String c "") +:+ text)
      in * by (by rewrite append_assoc).
    rewrite <- IH by done. f_equal.
    unfold appendNumber. cbn [isResultDisplayed currentInput expression history].
    rewrite includes_point_count.
    destruct (String.eqb (String c "") ".") eqn:Hpoint; [|done].
    apply String.eqb_eq in Hpoint. injection Hpoint as ->.
    rewrite !count_points_app in Hpoints. simpl in Hpoints.
    by nat_test (count_points input =? 0) true.
Qed.

Lemma typed_number_inv n :
  typed_number n = true ->
  number_keys n = true /\ count_points n <= 1 /\ n <> "".
Proof.
  unfold typed_number, JS.truthy.
  intros [[Hkeys Hpoints%Nat.leb_le]%andb_prop Hne%negb_true_iff]%andb_prop.
  by apply String.eqb_neq in Hne.
Qed.

Lemma type_fresh_number st n :
  fresh st -> typed_number n = true ->
  type_text st n = State n [] (history st) false.
Proof.
  intros Hfresh (Hkeys & Hpoints & Hne)%typed_number_inv.
  destruct st as [input expr h flag]. simpl in *.
  destruct Hfresh as [Hflag|[Hinput Hexpr]]; simpl in *; subst.
  - destruct n as [|c n]; [done|]. simpl in Hkeys.
    apply andb_prop in Hkeys as [Hc Hkeys].
    rewrite type_text_cons, press_number_key by done.
    unfold appendNumber. cbn [isResultDisplayed currentInput expression history].
    rewrite andb_false_r.
    by rewrite type_number_keys.
  - destruct flag.
    + destruct n as [|c n]; [done|]. simpl in Hkeys.
      apply andb_prop in Hkeys as [Hc Hkeys].
      rewrite type_text_cons, press_number_key by done.
      unfold appendNumber. cbn [isResultDisplayed currentInput expression history].
      rewrite andb_false_r.
      by rewrite type_number_keys.
    + by rewrite type_number_keys.
Qed.

Lemma appendOperator_pending n expr h o :
  n <> "" ->
  appendOperator (" " +:+ binop_token o +:+ " ") (State n expr h false)
  = State "" (expr ++ [n; binop_token o]) h false.
Proof.
  intros Hne. unfold appendOperator, JS.truthy.
  cbn [isResultDisplayed currentInput expression history].
  replace (String.eqb n "") with false by (symmetry; by apply String.eqb_neq).
  cbn [andb negb isResultDisplayed currentInput expression history].
  rewrite <- app_assoc. by destruct o.
Qed.

Lemma alternating_cons n0 o n rest :
  alternating n0 ((o, n) :: rest) = n0 :: binop_token o :: alternating n rest.
Proof. done. Qed.

Lemma type_operands rest : forall n0 expr h,
  n0 <> "" ->
  Forall (fun p => typed_number p.2 = true) rest ->
  type_text (State n0 expr h false)
            (JS.join (flat_map (fun p => [binop_token p.1; p.2]) rest))
  = State (pending_number n0 rest) (expr ++ committed_tokens n0 rest) h false.
Proof.
  induction rest as [|[o n] rest IH]; intros n0 expr h Hne Hall.
  - unfold committed_tokens. simpl. by rewrite app_nil_r.
  - apply Forall_cons in Hall as [Hn Hall]. simpl in Hn.
    pose proof (typed_number_inv n Hn) as (Hkeys & Hpoints & Hnne).
    change (flat_map (fun p : binop * string => [binop_token p.1; p.2])
              ((o, n) :: rest))
      with (binop_token o :: n
            :: flat_map (fun p : binop * string => [binop_token p.1; p.2]) rest).
    rewrite !join_cons, !type_text_app.
    assert (type_text (State n0 expr h false) (binop_token o)
            = State "" (expr ++ [n0; binop_token o]) h false) as ->.
    { rewrite <- (appendOperator_pending n0 expr h _ Hne). by destruct o. }
    rewrite type_number_keys by done. change ("" +:+ n) with n.
    rewrite IH by done.
    unfold pending_number, committed_tokens.
    rewrite alternating_cons. f_equal.
    + destruct rest as [|p rest]; [done|]. rewrite last_cons_cons.
      destruct (last (p :: rest)) eqn:Hlast; [done|].
      by apply last_None in Hlast.
    + rewrite <- app_assoc. by f_equal.
Qed.

Lemma pending_number_typed n0 rest :
  n0 <> "" -> Forall (fun p => typed_number p.2 = true) rest ->
  pending_number n0 rest <> "".
Proof.
  intros Hne Hall. unfold pending_number.
  destruct (last rest) as [[o n]|] eqn:Hlast; [|done]. simpl.
  apply last_Some in Hlast as [rest' ->].
  apply Forall_app in Hall as [_ [Hn _]%Forall_cons].
  by apply typed_number_inv in Hn as (_ & _ & Hn).
Qed.

Lemma committed_pending n0 rest :
  committed_tokens n0 rest ++ [pending_number n0 rest] = alternating n0 rest.
Proof.
  revert n0. induction rest as [|[o n] rest IH]; intros n0; [done|].
  rewrite alternating_cons, <- (IH n).
  unfold committed_tokens, pending_number. rewrite alternating_cons.
  assert (last ((o, n) :: rest) = Some (default (o, n) (last rest))) as ->.
  { destruct rest as [|p rest]; [done|]. rewrite last_cons_cons.
    destruct (last (p :: rest)) eqn:Hlast; [done|]. by apply last_None in Hlast. }
  destruct (last rest) as [[o' n']|]; simpl; done.
Qed.

Lemma type_expression st n0 rest :
  fresh st -> typed_number n0 = true ->
  Forall (fun p => typed_number p.2 = true) rest ->
  type_text st (expression_text n0 rest)
  = State (pending_number n0 rest) (committed_tokens n0 rest) (history st) false.
Proof.
  intros Hfresh Hn0 Hrest. unfold expression_text, alternating.
  rewrite join_cons, type_text_app.
  rewrite (type_fresh_number st n0) by done.
  apply typed_number_inv in Hn0 as (_ & _ & Hne).
  rewrite type_operands by done. done.
Qed.

End Typing.

(** X5: while a well-formed expression is keyed in, one character a key,
    the display shows exactly the text typed so far. *)
Theorem typing_shows_text st n0 rest :
  fresh st -> typed_number n0 = true ->
  Forall (fun p => typed_number p.2 = true) rest ->
  display_text (type_text st (expression_text n0 rest)) = expression_text n0 rest.
Proof.
  intros Hfresh Hn0 Hrest. rewrite type_expression by done.
  unfold display_text. cbn [isResultDisplayed expression currentInput].
  replace (JS.join (committed_tokens n0 rest) +:+ pending_number n0 rest)
    with (expression_text n0 rest).
  - unfold expression_text, alternating, or_else, JS.truthy. rewrite join_cons.
    apply typed_number_inv in Hn0 as (_ & _ & Hne).
    by destruct n0.
  - unfold expression_text. rewrite <- committed_pending, join_app.
    by rewrite join_cons, append_nil_r.
Qed.

Lemma typing_shows_text_witness :
  display_text (type_text initial "2+3*4") = "2+3*4".
Proof.
  apply (typing_shows_text initial "2" [(Add, "3"); (Mul, "4")]).
  - right. split; reflexivity.
  - reflexivity.
  - repeat constructor.
Defined.

(** X6: keying in a well-formed expression and pressing Enter commits what
    the evaluator makes of its token sequence, unless the compute is
    skipped: the formatted result with a history record, or the message. *)
Theorem keyboard_computes st n0 rest :
  fresh st -> typed_number n0 = true ->
  Forall (fun p => typed_number p.2 = true) rest ->
  skipped (alternating n0 rest) = false ->
  press (type_text st (expression_text n0 rest)) "Enter"
  = committed st (alternating n0 rest).
Proof.
  intros Hfresh Hn0 Hrest Hskip. rewrite type_expression, press_enter by done.
  pose proof Hn0 as (_ & _ & Hne)%typed_number_inv.
  pose proof (pending_number_typed n0 rest Hne Hrest) as Hpending.
  unfold calculate, submitted, JS.truthy.
  cbn [isResultDisplayed expression currentInput history].
  replace (String.eqb (pending_number n0 rest) "") with false
    by (symmetry; by apply String.eqb_neq).
  cbn [negb]. rewrite committed_pending, Hskip. done.
Qed.

Lemma keyboard_computes_witness :
  press (type_text initial "2+3*4") "Enter"
  = State "14" [] [Entry "2+3*4" "14"] true.
Proof.
  etrans; [apply (keyboard_computes initial "2" [(Add, "3"); (Mul, "4")])|].
  - right. split; reflexivity.
  - reflexivity.
  - repeat constructor.
  - reflexivity.
  - vm_compute. reflexivity.
Defined.

(** * Backspace as an undo *)

Section Undo.

Lemma drop_last_snoc s c : JS.drop_last (s +:+ String c "") = s.
Proof.
  induction s as [|d s IH]; [done|].
  change (JS.drop_last (String d (s +:+ String c "")) = String d s).
  cbn [JS.drop_last]. rewrite IH. by destruct s.
Qed.

Lemma truthy_snoc s c : JS.truthy (s +:+ String c "") = true.
Proof. by destruct s. Qed.

End Undo.

(** X7: with no result on display, a one-character key that [appendNumber]
    takes is undone by [backspace]. *)
Theorem backspace_undoes_key st c :
  isResultDisplayed st = false ->
  appendNumber (String c "") st <> st ->
  backspace (appendNumber (String c "") st) = st.
Proof.
  intros Hflag Hchanged. destruct st as [input expr h flag]. simpl in Hflag. subst.
  revert Hchanged. unfold appendNumber.
  cbn [isResultDisplayed currentInput expression history].
  destruct (_ && _); [done|]. intros _.
  unfold backspace. cbn [isResultDisplayed currentInput expression history].
  by rewrite truthy_snoc, drop_last_snoc.
Qed.

Lemma backspace_undoes_key_witness :
  backspace (appendNumber "5" (State "12" ["3"; "+"] [] false))
  = State "12" ["3"; "+"] [] false.
Proof.
  apply (backspace_undoes_key (State "12" ["3"; "+"] [] false) "5").
  - reflexivity.
  - vm_compute. discriminate.
Defined.

(** X8: with no result on display and a number in the input buffer,
    [backspace] undoes [appendOperator]: the operator goes and the number
    is back in the buffer. *)
Theorem backspace_undoes_operator st op :
  isResultDisplayed st = false ->
  currentInput st <> "" ->
  backspace (appendOperator op st) = st.
Proof.
  intros Hflag Hne. destruct st as [input expr h flag]. simpl in *. subst.
  unfold appendOperator, JS.truthy.
  cbn [isResultDisplayed currentInput expression history].
  replace (String.eqb input "") with false by (symmetry; by apply String.eqb_neq).
  cbn [andb negb isResultDisplayed currentInput expression history].
  unfold backspace, JS.truthy.
  cbn [isResultDisplayed currentInput expression history String.eqb negb].
  nat_test (0 <? length ((expr ++ [input]) ++ [JS.trim op])) true.
  rewrite !removelast_last, last_snoc. done.
Qed.


Lemma backspace_undoes_operator_witness :
  backspace (appendOperator " * " (State "12" ["3"; "+"] [] false))
  = State "12" ["3"; "+"] [] false.
Proof.
  apply (backspace_undoes_operator (State "12" ["3"; "+"] [] false) " * ").
  - reflexivity.
  - discriminate.
Defined.

(** * Results, the display and the history box *)
Section ResultText.

Lemma toString_nonempty x : JS.toString x <> "".
Proof.
  unfold JS.toString.
  destruct (is_nan x); [done|]. destruct (PrimFloat.eqb x 0); [done|].
  destruct (numeral_head_not_operator _ (toString_pos_head (abs x))) as [_ Hne].
  by destruct (is_infinity (abs x)), (PrimFloat.ltb x 0).
Qed.

Lemma toExponential_nonempty x : JS.toExponential 4 x <> "".
Proof.
  unfold JS.toExponential.
  destruct (is_nan x); [done|].
  destruct (is_infinity (abs x)); [by destruct (PrimFloat.ltb x 0)|].
  destruct (if PrimFloat.eqb x 0 then _ else _) as [n e].
  set (digits := if (n =? 0)%Z then JS.zeros (4 + 1) else JS.string_of_Z n).
  assert (numeral_head digits = true) as Hd.
  { subst digits. destruct (n =? 0)%Z; [done|apply string_of_Z_head]. }
  set (t := String.substring 1 _ _ +:+ _).
  destruct (numeral_head_not_operator _ (leading_digits_point digits 1 t Hd))
    as [_ Hne].
  by destruct (PrimFloat.ltb x 0).
Qed.

Lemma formatResult_nonempty x : formatResult x <> "".
Proof.
  unfold formatResult.
  destruct (_ || _); [apply toExponential_nonempty|apply toString_nonempty].
Qed.

Lemma message_nonempty e : message e <> "".
Proof. by destruct e. Qed.

Lemma or_else_nonempty a b : a <> "" -> or_else a b = a.
Proof. intros Hne. unfold or_else, JS.truthy. by destruct a. Qed.

End ResultText.

Section Display.

Lemma flag_after_builder st a :
  builder a -> isResultDisplayed (step st a) = false.
Proof.
  destruct st as [input expr h flag].
  destruct a; simpl; try done; intros _.
  - unfold appendNumber. simpl. destruct flag; simpl; by repeat case_match.
  - unfold appendOperator. simpl. destruct flag; simpl; by repeat case_match.
  - unfold backspace. simpl. destruct flag; simpl; by repeat case_match.
Qed.

End Display.

(** X9: in every reachable state that has a result on display the token
    sequence is empty and the input buffer is not, so the display shows the
    input buffer as it is. *)
Theorem result_on_display st :
  reachable st ->
  isResultDisplayed st = true ->
  expression st = [] /\ currentInput st <> ""
  /\ display_text st = currentInput st.
Proof.
  intros Hreach.
  assert (isResultDisplayed st = true ->
          expression st = [] /\ currentInput st <> "") as Hinv.
  { induction Hreach as [|st a _ IH _]; [done|].
    destruct a; try (by rewrite flag_after_builder).
    simpl. unfold calculate.
    destruct (isResultDisplayed st) eqn:Hflag; [by rewrite Hflag|].
    destruct (skipped (submitted st)); [simpl; congruence|].
    destruct (evaluateExpression (submitted st)); simpl; intros _.
    - split; [done|apply formatResult_nonempty].
    - split; [done|apply message_nonempty]. }
  intros Hflag. destruct (Hinv Hflag) as [Hexpr Hne].
  repeat split; try done.
  unfold display_text. rewrite Hflag. by apply or_else_nonempty.
Qed.

Lemma result_on_display_witness :
  expression (step (step initial (AppendNumber "7")) Calculate) = []
  /\ currentInput (step (step initial (AppendNumber "7")) Calculate) <> ""
  /\ display_text (step (step initial (AppendNumber "7")) Calculate)
     = currentInput (step (step initial (AppendNumber "7")) Calculate).
Proof.
  apply (result_on_display (step (step initial (AppendNumber "7")) Calculate)).
  - apply (reachable_step _ _ Calculate); [|exact I].
    apply (reachable_step _ initial (AppendNumber "7")); [|exact I].
    apply reachable_initial.
  - vm_compute. reflexivity.
Defined.

Section Records.

Lemma evaluate_normal_classified expr r :
  evaluateExpression expr = Normal r -> all_classified expr.
Proof.
  intros Heval. destruct (classified_or_unreadable expr) as [|Hbad]; [done|].
  unfold evaluateExpression in Heval.
  by rewrite parse_tokens_unreadable in Heval.
Qed.

Lemma join_nonempty tokens :
  tokens <> [] -> Forall (fun t => t <> "") tokens -> JS.join tokens <> "".
Proof.
  destruct tokens as [|t tokens]; [done|]. intros _ [Ht _]%Forall_cons.
  rewrite join_cons. by destruct t.
Qed.

Lemma classified_nonempty tokens :
  all_classified tokens -> Forall (fun t => t <> "") tokens.
Proof.
  intros Hall. eapply Forall_impl; [exact Hall|].
  intros t Ht ->. vm_compute in Ht. discriminate.
Qed.

Lemma join_submitted st :
  JS.join (submitted st) = JS.join (expression st) +:+ currentInput st.
Proof.
  unfold submitted, JS.truthy.
  destruct (String.eqb_spec (currentInput st) "") as [->|_]; simpl.
  - by rewrite append_nil_r.
  - by rewrite join_app, join_cons, append_nil_r.
Qed.

Lemma skipped_singleton t : skipped [t] = JS.falsy (JS.parseFloat t).
Proof. done. Qed.

End Records.

(** The page stays up to date under every action but one: a [calculate]
    that is skipped after it has pushed a pending input. *)
Lemma up_to_date_kept v a :
  up_to_date v ->
  (a = Calculate -> isResultDisplayed (model v) = false ->
   skipped (submitted (model v)) = true -> currentInput (model v) = "") ->
  up_to_date (view_step v a).
Proof.
  destruct v as [[input expr h flag] p]. unfold up_to_date, view_step.
  cbn [model screen]. intros -> Hcalc.
  destruct (refreshes (State input expr h flag) a) eqn:Hrefresh; [done|].
  destruct a as [digit|op| | | |];
    cbn [refreshes isResultDisplayed currentInput step] in *;
    try discriminate.
  - apply negb_false_iff in Hrefresh. unfold appendNumber.
    destruct flag; cbn [isResultDisplayed currentInput] in *.
    + by rewrite andb_false_r in Hrefresh.
    + by rewrite Hrefresh.
  - apply negb_false_iff in Hrefresh. unfold appendOperator.
    destruct flag; cbn [isResultDisplayed currentInput] in *.
    + rewrite Hrefresh. unfold updateDisplay, display_text, history_html.
      cbn [isResultDisplayed currentInput expression history].
      by rewrite join_cons, !append_nil_r.
    + by rewrite Hrefresh.
  - unfold calculate. destruct flag; cbn [isResultDisplayed negb andb] in *;
      [done|].
    apply negb_false_iff in Hrefresh.
    rewrite Hrefresh. specialize (Hcalc eq_refl eq_refl Hrefresh).
    cbn [currentInput] in Hcalc. subst input. done.
Qed.

Lemma up_to_date_builder v a :
  up_to_date v -> builder a -> up_to_date (view_step v a).
Proof.
  intros Hv Ha. apply up_to_date_kept; [done|]. intros ->. destruct Ha.
Qed.

(** X10: when the page is up to date, a successful [calculate] records what
    the display showed before it and what it shows after it; while the
    history is not full, the history box gains exactly that line. *)
Theorem compute_records_display v r :
  up_to_date v ->
  isResultDisplayed (model v) = false ->
  skipped (submitted (model v)) = false ->
  evaluateExpression (submitted (model v)) = Normal r ->
  history (model (view_step v Calculate))
  = push_history (history (model v))
      (Entry (display (screen v)) (display (screen (view_step v Calculate))))
  /\ (length (history (model v)) < 10 ->
      history_box (screen (view_step v Calculate))
      = history_box (screen v)
        +:+ history_line
              (Entry (display (screen v))
                     (display (screen (view_step v Calculate))))).
Proof.
  destruct v as [st p]. unfold up_to_date. cbn [model screen].
  intros -> Hflag Hskip Heval.
  unfold view_step. cbn [model screen refreshes step].
  rewrite Hflag, Hskip. cbn [negb andb updateDisplay display history_box].
  assert (display_text st = JS.join (submitted st)) as Hbefore.
  { unfold display_text. rewrite Hflag, <- join_submitted.
    apply or_else_nonempty, join_nonempty.
    - intros Hnil. by rewrite Hnil in Hskip.
    - by eapply classified_nonempty, evaluate_normal_classified. }
  assert (calculate st
          = State (formatResult r) []
              (push_history (history st)
                 (Entry (JS.join (submitted st)) (formatResult r))) true) as Hcalc.
  { unfold calculate. by rewrite Hflag, Hskip, Heval. }
  assert (display_text (calculate st) = formatResult r) as Hafter.
  { rewrite Hcalc. unfold display_text. simpl.
    apply or_else_nonempty, formatResult_nonempty. }
  rewrite Hbefore, Hafter, Hcalc. cbn [history]. split; [done|].
  intros Hlen. unfold history_html. cbn [history]. unfold push_history.
  nat_test (10 <? length (history st ++ [Entry (JS.join (submitted st)) (formatResult r)]))
           false.
  rewrite map_app, join_app. cbn [map]. by rewrite join_cons, append_nil_r.
Qed.

Lemma compute_records_display_witness :
  history_box
    (screen
       (view_step
          (view_run (View initial (Page "" ""))
             [AppendNumber "2"; AppendOperator " + "; AppendNumber "3";
              AppendOperator " * "; AppendNumber "4"])
          Calculate))
  = "<div>2+3*4 = 14</div>".
Proof.
  etrans.
  - apply (compute_records_display
             (view_run (View initial (Page "" ""))
                [AppendNumber "2"; AppendOperator " + "; AppendNumber "3";
                 AppendOperator " * "; AppendNumber "4"])
             14%float).
    + reflexivity.
    + reflexivity.
    + reflexivity.
    + vm_compute. reflexivity.
    + simpl. lia.
  - vm_compute. reflexivity.
Defined.

(** Without the premise the record is not what the display showed: a skipped
    [calculate] pushes the pending input and returns before [updateDisplay],
    so after keys 0 and Enter the display still shows the one 0 while the
    next Enter records two. *)
Lemma skipped_compute_stale_display p :
  display (screen (view_run (View initial p) [AppendNumber "0"; Calculate]))
  = "0"
  /\ display_text (model (view_run (View initial p) [AppendNumber "0"; Calculate]))
    = "00"
  /\ history
      (model (view_run (View initial p) [AppendNumber "0"; Calculate; Calculate]))
    = [Entry "00" "0"].
Proof. vm_compute. repeat split. Qed.

Section TwoTokens.

Lemma evaluate_two_numbers a b :
  is_number_token a = true -> is_number_token b = true ->
  evaluateExpression [a; b] = Normal (JS.parseFloat a).
Proof.
  intros [Ha Ha']%andb_prop [Hb Hb']%andb_prop.
  apply negb_true_iff in Ha, Ha', Hb, Hb'.
  unfold evaluateExpression. simpl. rewrite Ha, Ha', Hb, Hb'. simpl.
  rewrite high_pass_step. simpl. done.
Qed.

Lemma evaluate_difference a b :
  is_number_token a = true -> is_number_token b = true ->
  evaluateExpression [a; "-"; b]
  = Normal (JS.parseFloat a - JS.parseFloat b)%float.
Proof.
  intros [Ha Ha']%andb_prop [Hb Hb']%andb_prop.
  apply negb_true_iff in Ha, Ha', Hb, Hb'.
  unfold evaluateExpression. simpl. rewrite Ha, Ha', Hb, Hb'. simpl.
  rewrite high_pass_step. simpl. rewrite high_pass_step. simpl. done.
Qed.

End TwoTokens.

(** X11: with nothing committed and a number that is zero in the input
    buffer, a second [calculate] is not skipped: the token sequence then
    holds the text twice, the zero is committed and the record keeps the
    doubled text. *)
Theorem second_compute_commits_zero st :
  isResultDisplayed st = false ->
  expression st = [] ->
  is_number_token (currentInput st) = true ->
  PrimFloat.eqb (JS.parseFloat (currentInput st)) 0 = true ->
  calculate (calculate st)
  = State (formatResult (JS.parseFloat (currentInput st))) []
      (push_history (history st)
         (Entry (currentInput st +:+ currentInput st)
                (formatResult (JS.parseFloat (currentInput st)))))
      true.
Proof.
  intros Hflag Hexpr Hnum Hzero.
  destruct st as [input expr h flag]. simpl in *. subst.
  assert (JS.truthy input = true) as Htruthy.
  { destruct input; [|done]. vm_compute in Hnum. discriminate. }
  assert (calculate (State input [] h false) = State input [input] h false) as ->.
  { unfold calculate, submitted.
    cbn [isResultDisplayed currentInput expression history app].
    rewrite Htruthy. cbn [app]. rewrite skipped_singleton. unfold JS.falsy.
    by rewrite Hzero. }
  unfold calculate, submitted.
  cbn [isResultDisplayed currentInput expression history app].
  rewrite Htruthy. cbn [app].
  change (skipped [input; input]) with false. cbv iota.
  rewrite evaluate_two_numbers by done.
  by rewrite join_cons, join_cons, append_nil_r.
Qed.

Lemma second_compute_commits_zero_witness :
  calculate (calculate (State "0" [] [] false))
  = State "0" [] [Entry "00" "0"] true.
Proof.
  etrans; [apply (second_compute_commits_zero (State "0" [] [] false))|];
    vm_compute; reflexivity.
Defined.

(** X12: a minus pressed on a displayed number continues from it: typing a
    number and computing commits the difference. *)
Theorem minus_continues_result st n :
  isResultDisplayed st = true ->
  is_number_token (currentInput st) = true ->
  typed_number n = true ->
  is_number_token n = true ->
  calculate (type_text (appendOperator " - " st) n)
  = State (formatResult (JS.parseFloat (currentInput st) - JS.parseFloat n)) []
      (push_history (history st)
         (Entry (currentInput st +:+ "-" +:+ n)
                (formatResult (JS.parseFloat (currentInput st) - JS.parseFloat n))))
      true.
Proof.
  intros Hflag Hres (Hkeys & Hpoints & Hne)%typed_number_inv Hn.
  destruct st as [res expr h flag]. simpl in *. subst.
  assert (appendOperator " - " (State res expr h true)
          = State "" [res; "-"] h false) as -> by done.
  rewrite type_number_keys by done. change ("" +:+ n) with n.
  unfold calculate, submitted, JS.truthy. simpl.
  replace (String.eqb n "") with false by (symmetry; by apply String.eqb_neq).
  simpl. rewrite evaluate_difference by done.
  by rewrite !join_cons, append_nil_r.
Qed.

(** X13: any other operator pressed on a displayed number is not pushed:
    typing a number and computing gives the old number back, and the record
    shows the two texts run together. *)
Theorem other_operator_discarded st op n :
  isResultDisplayed st = true ->
  is_number_token (currentInput st) = true ->
  op <> " - " ->
  typed_number n = true ->
  is_number_token n = true ->
  calculate (type_text (appendOperator op st) n)
  = State (formatResult (JS.parseFloat (currentInput st))) []
      (push_history (history st)
         (Entry (currentInput st +:+ n)
                (formatResult (JS.parseFloat (currentInput st)))))
      true.
Proof.
  intros Hflag Hres Hop (Hkeys & Hpoints & Hne)%typed_number_inv Hn.
  destruct st as [res expr h flag]. simpl in *. subst.
  assert (appendOperator op (State res expr h true)
          = State "" [res] h false) as ->.
  { unfold appendOperator. simpl.
    by replace (String.eqb op " - ") with false
      by (symmetry; by apply String.eqb_neq). }
  rewrite type_number_keys by done. change ("" +:+ n) with n.
  unfold calculate, submitted, JS.truthy. simpl.
  replace (String.eqb n "") with false by (symmetry; by apply String.eqb_neq).
  simpl. rewrite evaluate_two_numbers by done.
  by rewrite !join_cons, append_nil_r.
Qed.

Lemma minus_continues_result_witness :
  calculate (type_text (appendOperator " - " (State "7" [] [Entry "3+4" "7"] true)) "2")
  = State "5" [] [Entry "3+4" "7"; Entry "7-2" "5"] true.
Proof.
  etrans; [apply (minus_continues_result (State "7" [] [Entry "3+4" "7"] true) "2")|];
    vm_compute; reflexivity.
Defined.

Lemma other_operator_discarded_witness :
  calculate (type_text (appendOperator " + " (State "7" [] [Entry "3+4" "7"] true)) "2")
  = State "7" [] [Entry "3+4" "7"; Entry "72" "7"] true.
Proof.
  etrans;
    [apply (other_operator_discarded (State "7" [] [Entry "3+4" "7"] true) " + " "2")|];
    try discriminate; vm_compute; reflexivity.
Defined.

(** * One decimal point *)

Section Points.

Lemma count_points_uint d : count_points (NilEmpty.string_of_uint d) = 0.
Proof. induction d; simpl; done. Qed.

Lemma count_points_string_of_Z z : count_points (JS.string_of_Z z) = 0.
Proof.
  unfold JS.string_of_Z, NilZero.string_of_uint.
  destruct (N.to_uint (Z.to_N z)); simpl; try done; apply count_points_uint.
Qed.

Lemma count_points_zeros n : count_points (JS.zeros n) = 0.
Proof.
  unfold JS.zeros. induction (Z.to_nat n) as [|k IH]; simpl; done.
Qed.

Lemma count_points_substring s : forall i j,
  count_points s = 0 -> count_points (String.substring i j s) = 0.
Proof.
  induction s as [|c s IH]; intros i j Hs.
  - by destruct i, j.
  - simpl in Hs. destruct (Ascii.eqb c ".") eqn:Hc; [done|].
    destruct i as [|i]; [destruct j as [|j]|]; simpl; [done| |by apply IH].
    rewrite Hc. by apply IH.
Qed.

Ltac count_points_text :=
  rewrite ?count_points_app, ?count_points_substring, ?count_points_zeros,
    ?count_points_string_of_Z by apply count_points_string_of_Z;
  simpl; try lia.

Lemma count_points_toString_pos a : count_points (JS.toString_pos a) <= 1.
Proof.
  unfold JS.toString_pos.
  destruct (JS.exact_ratio a) as [num den].
  destruct (JS.shortest _ _ _ _ _ _) as [[s n] k].
  repeat case_match; count_points_text.
Qed.

Lemma count_points_toString x : count_points (JS.toString x) <= 1.
Proof.
  unfold JS.toString.
  destruct (is_nan x); [simpl; lia|]. destruct (PrimFloat.eqb x 0); [simpl; lia|].
  pose proof (count_points_toString_pos (abs x)).
  destruct (is_infinity (abs x)), (PrimFloat.ltb x 0);
    rewrite ?count_points_app; simpl; lia.
Qed.

Lemma count_points_toExponential x : count_points (JS.toExponential 4 x) <= 1.
Proof.
  unfold JS.toExponential.
  destruct (is_nan x); [simpl; lia|].
  destruct (is_infinity (abs x)); [destruct (PrimFloat.ltb x 0); simpl; lia|].
  destruct (if PrimFloat.eqb x 0 then _ else _) as [n e].
  assert (count_points (if (n =? 0)%Z then JS.zeros (4 + 1) else JS.string_of_Z n) = 0)
    as Hdigits.
  { destruct (n =? 0)%Z; [apply count_points_zeros|apply count_points_string_of_Z]. }
  destruct (PrimFloat.ltb x 0), (e <? 0)%Z;
    rewrite ?count_points_app, ?count_points_substring, ?count_points_string_of_Z
      by done; simpl; lia.
Qed.

Lemma count_points_formatResult x : count_points (formatResult x) <= 1.
Proof.
  unfold formatResult.
  destruct (_ || _); [apply count_points_toExponential|apply count_points_toString].
Qed.

Lemma count_points_message e : count_points (message e) = 0.
Proof. by destruct e. Qed.

Lemma count_points_drop_last s :
  count_points (JS.drop_last s) <= count_points s.
Proof.
  induction s as [|c s IH]; [done|]. destruct s as [|d s]; [simpl; lia|].
  change (JS.drop_last (String c (String d s)))
    with (String c (JS.drop_last (String d s))).
  cbn [count_points] in *. lia.
Qed.

Lemma Forall_removelast {A} (P : A -> Prop) (l : list A) :
  Forall P l -> Forall P (removelast l).
Proof.
  destruct l as [|x l _] using rev_ind; [done|].
  rewrite removelast_last. by intros [? _]%Forall_app.
Qed.

Lemma one_point_step st a :
  point_keys st a -> one_point st -> one_point (step st a).
Proof.
  destruct st as [input expr h flag]. intros Hkey [Hinput Hexpr]. simpl in *.
  destruct a; simpl in *.
  - unfold appendNumber. simpl.
    destruct flag; simpl.
    + rewrite andb_false_r. split; [|done].
      cbn [currentInput]. rewrite count_points_app.
      destruct Hkey as [-> | Hnone]; simpl; lia.
    + rewrite includes_point_count.
      destruct (String.eqb_spec digit ".") as [->|Hne]; cbn [andb].
      * destruct (count_points input =? 0) eqn:Hzero; cbn [negb]; [|done].
        apply Nat.eqb_eq in Hzero. split; [|done].
        cbn [currentInput]. rewrite count_points_app. simpl. lia.
      * destruct Hkey as [->|Hnone]; [done|]. split; [|done].
        cbn [currentInput]. rewrite count_points_app. lia.
  - unfold appendOperator. simpl. destruct flag; simpl.
    + destruct (negb _); simpl; (split; [simpl; lia|]);
        repeat (apply Forall_cons; split); try apply Forall_nil; simpl; lia.
    + destruct (String.eqb input "" && negb _); simpl; [done|].
      destruct (JS.truthy input); simpl; (split; [simpl; lia|]);
        repeat (apply Forall_app; split); try done;
        repeat (apply Forall_cons; split); try apply Forall_nil; simpl; lia.
  - unfold backspace. simpl. destruct flag; simpl; [split; simpl; [lia|done]|].
    destruct (JS.truthy input); simpl.
    { split; [|done]. simpl. pose proof (count_points_drop_last input). lia. }
    destruct (0 <? length expr); simpl; [|done].
    split; simpl; [|by apply Forall_removelast, Forall_removelast].
    destruct (last (removelast expr)) as [t|] eqn:Hlast; simpl; [|lia].
    apply last_Some_elem_of in Hlast.
    pose proof (Forall_removelast _ _ Hexpr) as Hall.
    rewrite Forall_forall in Hall. by apply Hall.
  - split; simpl; [lia|done].
  - split; simpl; [lia|done].
  - unfold calculate, submitted. simpl. destruct flag; simpl; [done|].
    destruct (skipped _); simpl.
    { split; [done|]. simpl. destruct (JS.truthy input); [|done].
      apply Forall_app. split; [done|]. by constructor. }
    destruct (evaluateExpression _); simpl; split; simpl; try done.
    + apply count_points_formatResult.
    + rewrite count_points_message. lia.
Qed.

End Points.

(** X14: under keys that carry no point of their own, neither the input
    buffer nor any token ever holds two decimal points. *)
Theorem one_decimal_point st :
  reachable_via point_keys st ->
  count_points (currentInput st) <= 1
  /\ Forall (fun t => count_points t <= 1) (expression st).
Proof.
  induction 1 as [|st a _ IH Hkey]; [split; [simpl; lia|constructor]|].
  by apply one_point_step.
Qed.

Lemma one_decimal_point_witness :
  count_points
    (currentInput
       (step (step (step initial (AppendNumber "1")) (AppendNumber "."))
             (AppendNumber "."))) <= 1
  /\ Forall (fun t => count_points t <= 1)
       (expression
          (step (step (step initial (AppendNumber "1")) (AppendNumber "."))
                (AppendNumber "."))).
Proof.
  apply (one_decimal_point
           (step (step (step initial (AppendNumber "1")) (AppendNumber "."))
                 (AppendNumber "."))).
  apply (reachable_step _ _ (AppendNumber ".")); [|left; reflexivity].
  apply (reachable_step _ _ (AppendNumber ".")); [|left; reflexivity].
  apply (reachable_step _ initial (AppendNumber "1")); [|right; reflexivity].
  apply reachable_initial.
Defined.
